(** * The generic error classifier [handleGenericError]

    A shallow embedding of [handleGenericError] (lib/error-handler) together
    with the part of the ECMAScript platform it runs on: the values a caller
    can pass for [error : any], property reads with and without optional
    chaining, [typeof], truthiness, [String.prototype.trim], [Array.isArray],
    [Object.values], [Array.prototype.flat] / [find] and [JSON.stringify].

    Values are finite trees of data properties.  Callable values, symbols,
    proxies and cyclic object graphs are outside the model; accessor
    properties of the input are treated in [Accessors]. *)

From Stdlib Require Import List ZArith NArith QArith Qround Bool String Ascii.
From Stdlib Require Import DecimalString Floats Lia.
Import ListNotations.

(** ** ECMAScript values *)

Module JS.

(** A String is a sequence of UTF-16 code units. *)
Definition code_unit := N.
Definition jsstring := list code_unit.

(** An ASCII literal of the source text, as a String value. *)
Definition lit (s : string) : jsstring :=
  map N_of_ascii (list_ascii_of_string s).

Fixpoint str_eqb (s t : jsstring) : bool :=
  match s, t with
  | [], [] => true
  | a :: s', b :: t' => N.eqb a b && str_eqb s' t'
  | _, _ => false
  end.

(** The prototype an object was created with; only the built-in chains that
    the classifier can tell apart are distinguished. *)
Inductive proto : Type :=
| ObjectPrototype
| ErrorPrototype
| TypeErrorPrototype.

(** An own data property. *)
Record property (V : Type) : Type := mkProp {
  prop_key : jsstring;
  prop_enumerable : bool;
  prop_value : V
}.
Arguments mkProp {V} prop_key prop_enumerable prop_value.
Arguments prop_key {V} p.
Arguments prop_enumerable {V} p.
Arguments prop_value {V} p.

(** [Arr] is a dense array without extra named properties; [Obj] lists the
    own data properties in the order [[OwnPropertyKeys]] enumerates them. *)
Unset Elimination Schemes.
Inductive value : Type :=
| Undefined
| Null
| Bool (b : bool)
| Num (x : float)
| Str (s : jsstring)
| BigInt (z : Z)
| Arr (elems : list value)
| Obj (p : proto) (props : list (property value)).
Set Elimination Schemes.

(** Induction over the tree of a value: the hypothesis for an array or an
    object covers every element and every property value. *)
Section value_induction.
Variable P : value -> Prop.
Hypothesis HUndefined : P Undefined.
Hypothesis HNull : P Null.
Hypothesis HBool : forall b, P (Bool b).
Hypothesis HNum : forall x, P (Num x).
Hypothesis HStr : forall s, P (Str s).
Hypothesis HBigInt : forall z, P (BigInt z).
Hypothesis HArr : forall l, Forall P l -> P (Arr l).
Hypothesis HObj : forall p props,
    Forall (fun q => P (prop_value q)) props -> P (Obj p props).

Fixpoint value_ind (v : value) : P v :=
    match v with
    | Undefined => HUndefined
    | Null => HNull
    | Bool b => HBool b
    | Num x => HNum x
    | Str s => HStr s
    | BigInt z => HBigInt z
    | Arr l =>
        HArr l ((fix go (l : list value) : Forall P l :=
                 match l with
                 | [] => Forall_nil P
                 | e :: l' => Forall_cons e (value_ind e) (go l')
                 end) l)
    | Obj p props =>
        HObj p props ((fix go (ps : list (property value))
                   : Forall (fun q => P (prop_value q)) ps :=
                   match ps with
                   | [] => Forall_nil _
                   | q :: ps' =>
                       Forall_cons q (value_ind (prop_value q)) (go ps')
                   end) props)
    end.
End value_induction.

(** An object literal [{ k1: v1, ... }]: enumerable properties on the plain
    object prototype. *)
Definition field (k : string) (v : value) : property value :=
  mkProp (lit k) true v.
Definition object (fields : list (property value)) : value :=
  Obj ObjectPrototype fields.

(** [new TypeError(msg)]: the message is an own, non-enumerable property. *)
Definition new_TypeError (msg : jsstring) : value :=
  Obj TypeErrorPrototype [mkProp (lit "message") false (Str msg)].

(** ** Completions: a call returns normally or throws *)

Inductive exn : Type := TypeError.

Inductive completion (A : Type) : Type :=
| Normal (a : A)
| Throw (e : exn).
Arguments Normal {A} a.
Arguments Throw {A} e.

Definition ret {A : Type} (a : A) : completion A := Normal a.

Definition bind {A B : Type} (c : completion A) (k : A -> completion B)
  : completion B :=
  match c with
  | Normal a => k a
  | Throw e => Throw e
  end.

Declare Scope js_scope.
Delimit Scope js_scope with js.
Notation "x <- c ;; k" := (bind c (fun x => k))
  (at level 61, c at next level, right associativity) : js_scope.
Open Scope js_scope.

(** ** Operators *)

Inductive type_tag : Type :=
| TyUndefined | TyObject | TyBoolean | TyNumber | TyString | TyBigInt.

(** [typeof v] *)
Definition typeof (v : value) : type_tag :=
  match v with
  | Undefined => TyUndefined
  | Null => TyObject
  | Bool _ => TyBoolean
  | Num _ => TyNumber
  | Str _ => TyString
  | BigInt _ => TyBigInt
  | Arr _ => TyObject
  | Obj _ _ => TyObject
  end.

Definition type_tag_eqb (a b : type_tag) : bool :=
  match a, b with
  | TyUndefined, TyUndefined | TyObject, TyObject | TyBoolean, TyBoolean
  | TyNumber, TyNumber | TyString, TyString | TyBigInt, TyBigInt => true
  | _, _ => false
  end.

(** ToBoolean: what [if], [&&] and [!] test. *)
Definition ToBoolean (v : value) : bool :=
  match v with
  | Undefined => false
  | Null => false
  | Bool b => b
  | Num x => negb (PrimFloat.is_zero x || PrimFloat.is_nan x)
  | Str s => match s with [] => false | _ => true end
  | BigInt z => negb (Z.eqb z 0)
  | Arr _ => true
  | Obj _ _ => true
  end.

Definition is_nullish (v : value) : bool :=
  match v with
  | Undefined | Null => true
  | _ => false
  end.

(** [v === x] for a Number literal [x], and [v === s] for a String literal. *)
Definition strict_equals_number (v : value) (x : float) : bool :=
  match v with
  | Num y => PrimFloat.eqb y x
  | _ => false
  end.

Definition strict_equals_string (v : value) (s : jsstring) : bool :=
  match v with
  | Str t => str_eqb t s
  | _ => false
  end.

(** WhiteSpace and LineTerminator code points, all in the basic plane. *)
Definition is_white_space (c : code_unit) : bool :=
  (N.eqb c 9 || N.eqb c 10 || N.eqb c 11 || N.eqb c 12 || N.eqb c 13
   || N.eqb c 32 || N.eqb c 160 || N.eqb c 5760
   || (N.leb 8192 c && N.leb c 8202)
   || N.eqb c 8232 || N.eqb c 8233 || N.eqb c 8239 || N.eqb c 8287
   || N.eqb c 12288 || N.eqb c 65279)%bool.

Fixpoint trim_start (s : jsstring) : jsstring :=
  match s with
  | [] => []
  | c :: s' => if is_white_space c then trim_start s' else s
  end.

Definition trim_end (s : jsstring) : jsstring := rev (trim_start (rev s)).

(** [String.prototype.trim] *)
Definition String_trim (s : jsstring) : jsstring := trim_end (trim_start s).

(** [v.trim()]: only a String has the method among the modelled values. *)
Definition call_trim (v : value) : completion value :=
  match v with
  | Str s => ret (Str (String_trim s))
  | _ => Throw TypeError
  end.

(** Own property lookup; on a duplicate-free list the first hit is the hit. *)
Fixpoint own_property (props : list (property value)) (k : jsstring)
  : option value :=
  match props with
  | [] => None
  | q :: props' =>
      if str_eqb (prop_key q) k then Some (prop_value q)
      else own_property props' k
  end.

(** Data properties found on the prototype chain. [Error.prototype] and
    [TypeError.prototype] carry [message] (the empty String) and [name];
    their other members, and those of [Object.prototype], are methods and are
    never named by the classifier. *)
Definition inherited_property (p : proto) (k : jsstring) : value :=
  match p with
  | ObjectPrototype => Undefined
  | ErrorPrototype =>
      if str_eqb k (lit "message") then Str []
      else if str_eqb k (lit "name") then Str (lit "Error")
      else Undefined
  | TypeErrorPrototype =>
      if str_eqb k (lit "message") then Str []
      else if str_eqb k (lit "name") then Str (lit "TypeError")
      else Undefined
  end.

(** [v.k] for a named key [k] (not an index, not [length]): reading a
    property of [undefined] or [null] throws; primitives and arrays have no
    such data property. *)
Definition get (v : value) (k : jsstring) : completion value :=
  match v with
  | Undefined | Null => Throw TypeError
  | Obj p props =>
      match own_property props k with
      | Some x => ret x
      | None => ret (inherited_property p k)
      end
  | _ => ret Undefined
  end.

(** [v?.k] *)
Definition get_opt (v : value) (k : jsstring) : completion value :=
  if is_nullish v then ret Undefined else get v k.

(** [v[0]] *)
Definition element0 (v : value) : completion value :=
  match v with
  | Undefined | Null => Throw TypeError
  | Arr l => ret (hd Undefined l)
  | Str s => ret (match s with [] => Undefined | c :: _ => Str [c] end)
  | Obj p props =>
      match own_property props (lit "0") with
      | Some x => ret x
      | None => ret Undefined
      end
  | _ => ret Undefined
  end.

(** [v.length > 0]. The classifier asks it of arrays only; for an object the
    own [length] is compared when it is a Number, and no conversion of other
    [length] values is modelled. *)
Definition length_gt_0 (v : value) : completion value :=
  match v with
  | Undefined | Null => Throw TypeError
  | Arr l => ret (Bool (match l with [] => false | _ => true end))
  | Str s => ret (Bool (match s with [] => false | _ => true end))
  | Obj p props =>
      match own_property props (lit "length") with
      | Some (Num x) => ret (Bool (PrimFloat.ltb 0 x))
      | _ => ret (Bool false)
      end
  | _ => ret (Bool false)
  end.

Definition Array_isArray (v : value) : bool :=
  match v with
  | Arr _ => true
  | _ => false
  end.

(** [v instanceof TypeError] *)
Definition instanceof_TypeError (v : value) : bool :=
  match v with
  | Obj TypeErrorPrototype _ => true
  | _ => false
  end.

(** [Object.values(v)]: the own enumerable property values, in enumeration
    order; the elements of an array; the characters of a String. *)
Definition Object_values (v : value) : completion (list value) :=
  match v with
  | Undefined | Null => Throw TypeError
  | Arr l => ret l
  | Obj _ props =>
      ret (map (fun q => prop_value q)
               (filter (fun q => prop_enumerable q) props))
  | Str s => ret (map (fun c => Str [c]) s)
  | _ => ret []
  end.

(** [l.flat()]: depth one. *)
Fixpoint Array_flat (l : list value) : list value :=
  match l with
  | [] => []
  | Arr inner :: l' => inner ++ Array_flat l'
  | v :: l' => v :: Array_flat l'
  end.

(** [l.find(pred)]: the first element on which the predicate is truthy,
    [undefined] when there is none. *)
Fixpoint Array_find (pred : value -> completion bool) (l : list value)
  : completion value :=
  match l with
  | [] => ret Undefined
  | v :: l' =>
      b <- pred v ;;
      if b then ret v else Array_find pred l'
  end.

(** ** [JSON.stringify] *)

Definition hex_digit (d : N) : code_unit :=
  if N.ltb d 10 then (48 + d)%N else (87 + d)%N.

(** UnicodeEscape: [\uXXXX] with lower-case digits. *)
Definition unicode_escape (c : code_unit) : jsstring :=
  lit "\u" ++ [hex_digit (N.modulo (N.div c 4096) 16);
               hex_digit (N.modulo (N.div c 256) 16);
               hex_digit (N.modulo (N.div c 16) 16);
               hex_digit (N.modulo c 16)].

Definition is_high_surrogate (c : code_unit) : bool :=
  N.leb 55296 c && N.leb c 56319.
Definition is_low_surrogate (c : code_unit) : bool :=
  N.leb 56320 c && N.leb c 57343.

Definition escape_unit (c : code_unit) : jsstring :=
  if N.eqb c 8 then lit "\b"
  else if N.eqb c 9 then lit "\t"
  else if N.eqb c 10 then lit "\n"
  else if N.eqb c 12 then lit "\f"
  else if N.eqb c 13 then lit "\r"
  else if N.eqb c 34 then [92; 34]%N
  else if N.eqb c 92 then lit "\\"
  else if N.ltb c 32 then unicode_escape c
  else [c].

Fixpoint quote_units (s : jsstring) : jsstring :=
  match s with
  | [] => []
  | c :: s' =>
      if is_high_surrogate c then
        match s' with
        | d :: s'' =>
            if is_low_surrogate d then c :: d :: quote_units s''
            else unicode_escape c ++ quote_units s'
        | [] => unicode_escape c
        end
      else if is_low_surrogate c then unicode_escape c ++ quote_units s'
      else escape_unit c ++ quote_units s'
  end.

Definition QuoteJSONString (s : jsstring) : jsstring :=
  [34%N] ++ quote_units s ++ [34%N].

Fixpoint concat_with (sep : jsstring) (parts : list jsstring) : jsstring :=
  match parts with
  | [] => []
  | [p] => p
  | p :: rest => p ++ sep ++ concat_with sep rest
  end.

(** *** Number::toString, radix 10

    A finite non-zero Number [m * 2^e] prints the shortest decimal
    [s * 10^(n-k)] (with [k] digits in [s]) that reads back as the same
    Number, the closest one when several do. *)

Definition pow10 (t : Z) : Q :=
  if (0 <=? t)%Z then inject_Z (10 ^ t) else / inject_Z (10 ^ (- t)).
Definition pow2 (t : Z) : Q :=
  if (0 <=? t)%Z then inject_Z (2 ^ t) else / inject_Z (2 ^ (- t)).

Definition Qltb (a b : Q) : bool := negb (Qle_bool b a).

(** The reals that round to [m * 2^e] (binary64, ties to even) form an
    interval, closed exactly when [m] is even. *)
Definition round_lo (m : positive) (e : Z) : Q :=
  if (Pos.eqb m (2 ^ 52) && Z.ltb (-1074) e)%bool
  then inject_Z (4 * Zpos m - 1) * pow2 (e - 2)
  else inject_Z (2 * Zpos m - 1) * pow2 (e - 1).
Definition round_hi (m : positive) (e : Z) : Q :=
  inject_Z (2 * Zpos m + 1) * pow2 (e - 1).

Definition rounds_to (m : positive) (e : Z) (v : Q) : bool :=
  if Z.even (Zpos m)
  then Qle_bool (round_lo m e) v && Qle_bool v (round_hi m e)
  else Qltb (round_lo m e) v && Qltb v (round_hi m e).

(** The [k]-digit [s] with [s * 10^(n-k)] rounding to [m * 2^e], if any. *)
Definition digits_for (m : positive) (e : Z) (k n : Z) : option Z :=
  let u := pow10 (n - k) in
  let q := (inject_Z (Zpos m) * pow2 e) / u in
  let sf := Qfloor q in
  let ok (s : Z) :=
    ((10 ^ (k - 1) <=? s)%Z && (s <? 10 ^ k)%Z
     && rounds_to m e (inject_Z s * u))%bool in
  match ok sf, ok (sf + 1)%Z with
  | true, true =>
      let below := q - inject_Z sf in
      let above := inject_Z (sf + 1) - q in
      if Qltb below above then Some sf
      else if Qltb above below then Some (sf + 1)%Z
      else if Z.even sf then Some sf else Some (sf + 1)%Z
  | true, false => Some sf
  | false, true => Some (sf + 1)%Z
  | false, false => None
  end.

(** The [n] with [10^(n-1) <= m * 2^e < 10^n], searched around the estimate
    that the binary exponent gives. *)
Definition decimal_exponent (m : positive) (e : Z) : Z :=
  let x := inject_Z (Zpos m) * pow2 e in
  let g := (((e + Z.log2 (Zpos m)) * 30103) / 100000)%Z in
  match find (fun n => Qltb x (pow10 n))
             [g - 1; g; g + 1; g + 2; g + 3]%Z with
  | Some n => n
  | None => (g + 4)%Z
  end.

(** The distance between [s * 10^(n-k)] and [m * 2^e]. *)
Definition distance (m : positive) (e : Z) (s k n : Z) : Q :=
  let x := inject_Z (Zpos m) * pow2 e in
  let v := inject_Z s * pow10 (n - k) in
  if Qle_bool v x then x - v else v - x.

(** The least [k] for which some [k]-digit decimal rounds to [m * 2^e].
    With [10^(n0-1) <= m * 2^e < 10^n0] such a decimal has exponent [n0], or
    it is [10^n0] itself, which has exponent [n0 + 1]; when both are there,
    the closer one is taken, and the even [s] when they are equally close. *)
Fixpoint shortest_from (m : positive) (e : Z) (n0 : Z) (k : Z) (fuel : nat)
  : Z * Z * Z :=
  match fuel with
  | O => (0, 1, 0)%Z
  | S fuel' =>
      match digits_for m e k n0, digits_for m e k (n0 + 1) with
      | Some s, Some s' =>
          let d := distance m e s k n0 in
          let d' := distance m e s' k (n0 + 1) in
          if Qltb d d' then (s, k, n0)
          else if Qltb d' d then (s', k, n0 + 1)%Z
          else if Z.even s then (s, k, n0) else (s', k, n0 + 1)%Z
      | Some s, None => (s, k, n0)
      | None, Some s' => (s', k, n0 + 1)%Z
      | None, None => shortest_from m e n0 (k + 1) fuel'
      end
  end.

(** [(s, k, n)] of Number::toString, step 5; seventeen digits always
    suffice for a binary64 value. *)
Definition shortest_decimal (m : positive) (e : Z) : Z * Z * Z :=
  shortest_from m e (decimal_exponent m e) 1 17.

Definition decimal_digits (z : Z) : jsstring :=
  lit (NilZero.string_of_uint (N.to_uint (Z.to_N z))).

Definition zeros (n : Z) : jsstring := repeat 48%N (Z.to_nat n).

Definition format_decimal (s k n : Z) : jsstring :=
  let ds := decimal_digits s in
  if ((k <=? n) && (n <=? 21))%Z%bool then ds ++ zeros (n - k)
  else if ((0 <? n) && (n <=? 21))%Z%bool then
    firstn (Z.to_nat n) ds ++ lit "." ++ skipn (Z.to_nat n) ds
  else if ((-6 <? n) && (n <=? 0))%Z%bool then
    lit "0." ++ zeros (- n) ++ ds
  else
    let sign := if (0 <=? n - 1)%Z then lit "+" else lit "-" in
    let ex := decimal_digits (Z.abs (n - 1)) in
    if (k =? 1)%Z then ds ++ lit "e" ++ sign ++ ex
    else firstn 1 ds ++ lit "." ++ skipn 1 ds ++ lit "e" ++ sign ++ ex.

(** Number::toString *)
Definition Number_toString (x : float) : jsstring :=
  match Prim2SF x with
  | S754_nan => lit "NaN"
  | S754_zero _ => lit "0"
  | S754_infinity false => lit "Infinity"
  | S754_infinity true => lit "-Infinity"
  | S754_finite sign m e =>
      let '(s, k, n) := shortest_decimal m e in
      (if sign then lit "-" else []) ++ format_decimal s k n
  end.

(** SerializeJSONProperty without replacer and indentation, on the values
    of the model: [None] stands for [undefined]; a BigInt anywhere on the
    way throws.  A function or a symbol, which also serialize to
    [undefined], and a cyclic object, which also throws, are no values of
    the model. *)
Fixpoint SerializeJSONProperty (v : value) : completion (option jsstring) :=
  match v with
  | Undefined => ret None
  | Null => ret (Some (lit "null"))
  | Bool true => ret (Some (lit "true"))
  | Bool false => ret (Some (lit "false"))
  | Num x =>
      ret (Some (if PrimFloat.is_finite x then Number_toString x
                 else lit "null"))
  | Str s => ret (Some (QuoteJSONString s))
  | BigInt _ => Throw TypeError
  | Arr l =>
      parts <- (fix elements (l : list value) : completion (list jsstring) :=
                  match l with
                  | [] => ret []
                  | e :: l' =>
                      p <- SerializeJSONProperty e ;;
                      ps <- elements l' ;;
                      ret (match p with
                           | Some t => t
                           | None => lit "null"
                           end :: ps)
                  end) l ;;
      ret (Some (lit "[" ++ concat_with (lit ",") parts ++ lit "]"))
  | Obj _ props =>
      parts <- (fix members (ps : list (property value))
                  : completion (list jsstring) :=
                  match ps with
                  | [] => ret []
                  | q :: ps' =>
                      if prop_enumerable q then
                        p <- SerializeJSONProperty (prop_value q) ;;
                        rest <- members ps' ;;
                        ret (match p with
                             | Some t =>
                                 (QuoteJSONString (prop_key q) ++ lit ":" ++ t)
                                   :: rest
                             | None => rest
                             end)
                      else members ps'
                  end) props ;;
      ret (Some (lit "{" ++ concat_with (lit ",") parts ++ lit "}"))
  end.

(** [JSON.stringify(v)] *)
Definition JSON_stringify (v : value) : completion value :=
  r <- SerializeJSONProperty v ;;
  ret (match r with
       | Some s => Str s
       | None => Undefined
       end).

(** [a && b] in a condition: [b] is evaluated only when [a] is truthy. *)
Definition cond_and (a : bool) (b : completion value) : completion bool :=
  if a then (v <- b ;; ret (ToBoolean v)) else ret false.

Definition is_string_type (v : value) : bool :=
  type_tag_eqb (typeof v) TyString.

(** *** Reading without effects

    What [v?.k] evaluates to, and the non-blank test that [s.trim()] decides;
    the lemmas below relate them to [get_opt], [get] and [call_trim]. *)

Definition read (v : value) (k : jsstring) : value :=
  match v with
  | Obj p props =>
      match own_property props k with
      | Some x => x
      | None => inherited_property p k
      end
  | _ => Undefined
  end.

Definition is_blank (s : jsstring) : bool := forallb is_white_space s.

Definition nonblank_string (v : value) : bool :=
  match v with
  | Str s => negb (is_blank s)
  | _ => false
  end.

Definition is_non_null_object (v : value) : bool :=
  match v with
  | Arr _ | Obj _ _ => true
  | _ => false
  end.

End JS.

(** ** The classifier (lib/error-handler) *)

Module ErrorHandler.
Import JS.

Definition msg_unauthorized : jsstring :=
  lit "Unauthorized. Please log in again.".
Definition msg_forbidden : jsstring :=
  lit "You do not have permission to perform this action.".
Definition msg_not_found : jsstring := lit "Resource not found.".
Definition msg_server_error : jsstring :=
  lit "A server error occurred. Please try again later.".
Definition msg_generic : jsstring := lit "An error occurred. Please try again.".
Definition msg_no_response : jsstring :=
  lit "No response from server. Please check your internet connection.".
Definition msg_network : jsstring :=
  lit "Network error. Please check your connection.".
Definition msg_unexpected : jsstring :=
  lit "An unexpected error occurred. Please try again.".

(** Line 40: [typeof v === "string" && v.trim()], the predicate of [find]. *)
Definition is_field_error (v : value) : completion bool :=
  cond_and (is_string_type v) (call_trim v).

(** Lines 22-44, the body of [if (typeof data === "object" && data !== null)];
    [None] when control leaves the block without returning. *)
Definition object_data_message (data : value) : completion (option value) :=
  m <- get_opt data (lit "message") ;;
  c <- cond_and (is_string_type m)
                (m <- get data (lit "message") ;; call_trim m) ;;
  if c then (m <- get data (lit "message") ;; ret (Some m)) else
  d <- get_opt data (lit "detail") ;;
  c <- cond_and (is_string_type d)
                (d <- get data (lit "detail") ;; call_trim d) ;;
  if c then (d <- get data (lit "detail") ;; ret (Some d)) else
  m <- get_opt data (lit "message") ;;
  c <- cond_and (Array_isArray m)
                (m <- get data (lit "message") ;; length_gt_0 m) ;;
  if c then
    m <- get data (lit "message") ;;
    e <- element0 m ;;
    if is_string_type e
    then (m <- get data (lit "message") ;; e <- element0 m ;; ret (Some e))
    else (m <- get data (lit "message") ;; e <- element0 m ;;
          r <- JSON_stringify e ;; ret (Some r))
  else
  d <- get_opt data (lit "detail") ;;
  c <- cond_and (Array_isArray d)
                (d <- get data (lit "detail") ;; length_gt_0 d) ;;
  if c then
    d <- get data (lit "detail") ;;
    e <- element0 d ;;
    if is_string_type e
    then (d <- get data (lit "detail") ;; e <- element0 d ;; ret (Some e))
    else (d <- get data (lit "detail") ;; e <- element0 d ;;
          r <- JSON_stringify e ;; ret (Some r))
  else
  vs <- Object_values data ;;
  fieldError <- Array_find is_field_error (Array_flat vs) ;;
  if ToBoolean fieldError then ret (Some fieldError) else ret None.

(** Lines 46-53: the fallback for known status codes and the generic
    fallback. *)
Definition status_message (status : value) : value :=
  if strict_equals_number status 401 then Str msg_unauthorized
  else if strict_equals_number status 403 then Str msg_forbidden
  else if strict_equals_number status 404 then Str msg_not_found
  else if strict_equals_number status 500 then Str msg_server_error
  else Str msg_generic.

(** Lines 13-53, the body of [if (error?.response)]. *)
Definition response_message (error : value) : completion value :=
  r <- get error (lit "response") ;;
  status <- get_opt r (lit "status") ;;
  r <- get error (lit "response") ;;
  data <- get_opt r (lit "data") ;;
  c <- cond_and (is_string_type data) (call_trim data) ;;
  if c then ret data else
  found <- (if type_tag_eqb (typeof data) TyObject
               && negb (match data with Null => true | _ => false end)
            then object_data_message data
            else ret None) ;;
  match found with
  | Some r => ret r
  | None => ret (status_message status)
  end.

(** Lines 56-87, the statements after the [response] block. *)
Definition no_response_message (error : value) : completion value :=
  rq <- get_opt error (lit "request") ;;
  c <- cond_and (ToBoolean rq)
                (rs <- get_opt error (lit "response") ;;
                 ret (Bool (negb (ToBoolean rs)))) ;;
  if c then ret (Str msg_no_response) else
  c <- cond_and (instanceof_TypeError error)
                (m <- get_opt error (lit "message") ;;
                 ret (Bool (strict_equals_string m (lit "Failed to fetch")))) ;;
  if c then ret (Str msg_network) else
  c <- cond_and (is_string_type error) (call_trim error) ;;
  if c then ret error else
  m <- get_opt error (lit "message") ;;
  c <- cond_and (is_string_type m)
                (m <- get error (lit "message") ;; call_trim m) ;;
  if c then get error (lit "message") else
  c <- cond_and (Array_isArray error) (length_gt_0 error) ;;
  first <- (if c then
              e <- element0 error ;;
              c <- cond_and (is_string_type e)
                            (e <- element0 error ;; call_trim e) ;;
              if c then (e <- element0 error ;; ret (Some e)) else
              e <- element0 error ;;
              m <- get_opt e (lit "message") ;;
              c <- cond_and (is_string_type m)
                            (e <- element0 error ;;
                             m <- get e (lit "message") ;; call_trim m) ;;
              if c then (e <- element0 error ;;
                         m <- get e (lit "message") ;; ret (Some m))
              else ret None
            else ret None) ;;
  match first with
  | Some r => ret r
  | None => ret (Str msg_unexpected)
  end.

(** Line 12 chooses between the two. The declared result type is [string];
    what a call hands back at run time is a value or an exception. *)
Definition handleGenericError (error : value) : completion value :=
  r <- get_opt error (lit "response") ;;
  if ToBoolean r then response_message error else no_response_message error.

(** ** The rules in the words of the specification *)

(** The input carries a field: reading it gives a truthy value. *)
Definition carries (error : value) (k : string) : bool :=
  ToBoolean (read error (lit k)).

Fixpoint first_applicable {A : Type} (rules : list (option A)) : option A :=
  match rules with
  | [] => None
  | Some a :: _ => Some a
  | None :: rules' => first_applicable rules'
  end.

(** [data.k] when it is a non-blank string. *)
Definition string_field (data : value) (k : string)
  : option (completion value) :=
  if nonblank_string (read data (lit k)) then Some (ret (read data (lit k)))
  else None.

(** An element as it is when a string, JSON-encoded otherwise. *)
Definition json_encoded_unless_string (e : value) : completion value :=
  match e with
  | Str _ => ret e
  | _ => JSON_stringify e
  end.

(** The first element of [data.k] when it is a non-empty array. *)
Definition array_field (data : value) (k : string)
  : option (completion value) :=
  match read data (lit k) with
  | Arr (e :: _) => Some (json_encoded_unless_string e)
  | _ => None
  end.

(** The field values of [data] in enumeration order. *)
Definition field_values (data : value) : list value :=
  match data with
  | Arr l => l
  | Obj _ props => map (fun q => prop_value q)
                       (filter (fun q => prop_enumerable q) props)
  | _ => []
  end.

Definition flatten_one_level (vs : list value) : list value :=
  flat_map (fun v => match v with Arr inner => inner | _ => [v] end) vs.

(** The first non-blank string among the flattened field values. *)
Definition field_scan (data : value) : option (completion value) :=
  option_map (fun v => ret v)
             (find nonblank_string (flatten_one_level (field_values data))).

(** Rule 1.b: message, detail, message array, detail array, field scan. *)
Definition rule_1b (data : value) : option (completion value) :=
  first_applicable
    [string_field data "message";
     string_field data "detail";
     array_field data "message";
     array_field data "detail";
     field_scan data].

(** Rules 2 to 7, for an input that carries no [response]. *)
Definition first_element_message (error : value) : option value :=
  match error with
  | Arr (e :: _) =>
      if nonblank_string e then Some e
      else if nonblank_string (read e (lit "message"))
           then Some (read e (lit "message"))
           else None
  | _ => None
  end.

Definition rules_2_to_7 (error : value) : value :=
  if carries error "request" && negb (carries error "response")
  then Str msg_no_response
  else if instanceof_TypeError error
          && strict_equals_string (read error (lit "message"))
                                  (lit "Failed to fetch")
  then Str msg_network
  else if nonblank_string error then error
  else if nonblank_string (read error (lit "message"))
  then read error (lit "message")
  else match first_element_message error with
       | Some m => m
       | None => Str msg_unexpected
       end.

(** Rule 1, for an input whose [response] has the given status and data. *)
Definition rule_1 (status data : value) : completion value :=
  if nonblank_string data then ret data
  else match (if is_non_null_object data then rule_1b data else None) with
       | Some c => c
       | None => ret (status_message status)
       end.

(** The input with every own property named [k] left out. *)
Definition without_field (error : value) (k : string) : value :=
  match error with
  | Obj p props =>
      Obj p (filter (fun q => negb (str_eqb (prop_key q) (lit k))) props)
  | _ => error
  end.

(** The first element of [data.k] when [data.k] is a non-empty array. *)
Definition first_of_array_field (data : value) (k : string) : option value :=
  match read data (lit k) with
  | Arr (e :: _) => Some e
  | _ => None
  end.

(** The element that the call hands to [JSON.stringify] (lines 32 and 35),
    if it gets there: the input carries a [response], the data of the
    response is a non-null object, neither [data.message] nor [data.detail]
    is a non-blank string, and the first of [data.message], [data.detail]
    that is a non-empty array has a first element that is not a string. *)
Definition stringified_element (error : value) : option value :=
  let data := read (read error (lit "response")) (lit "data") in
  if carries error "response"
     && is_non_null_object data
     && negb (nonblank_string (read data (lit "message")))
     && negb (nonblank_string (read data (lit "detail")))
  then match first_applicable [first_of_array_field data "message";
                               first_of_array_field data "detail"] with
       | Some e => if is_string_type e then None else Some e
       | None => None
       end
  else None.

End ErrorHandler.

(** ** The mutation hooks (hooks/useApi) *)

Module MutationHooks.
Import JS ErrorHandler.

(** What a hook does to the outside: the notification ([toast.error] of
    sonner), the console and the query cache. *)
Inductive effect : Type :=
| toast_error (message : value)
| console_error (message : value)
| invalidateQueries (queryKey : value).

(** How a call ends: it returns, it throws a value, or the platform raises. *)
Inductive ending : Type :=
| Returns
| Throws (thrown : value)
| Raises (e : exn).

(** [new Error(message)]: no own [message] for [undefined], an own
    non-enumerable one for a String. The conversion of any other message to
    a String is not modelled; [None] stands for that. *)
Definition new_Error (message : value) : option value :=
  match message with
  | Undefined => Some (Obj ErrorPrototype [])
  | Str s => Some (Obj ErrorPrototype [mkProp (lit "message") false (Str s)])
  | _ => None
  end.

(** Lines 37-45. [NODE_ENV] is [process.env.NODE_ENV]. *)
Definition handleMutationError (NODE_ENV : value) (error : value)
  : option (list effect * ending) :=
  match handleGenericError error with
  | Throw e => Some ([], Raises e)
  | Normal errorMessage =>
      match new_Error errorMessage with
      | Some thrown =>
          Some (toast_error errorMessage
                  :: (if negb (strict_equals_string NODE_ENV (lit "production"))
                      then [console_error errorMessage]
                      else []),
                Throws thrown)
      | None => None
      end
  end.

(** Lines 22-32: [invalidateQuery(queryClient, queryKey)]. *)
Definition invalidateQuery (queryKey : value) : list effect :=
  if negb (ToBoolean queryKey) then []
  else if Array_isArray queryKey then [invalidateQueries queryKey]
  else [invalidateQueries (Arr [queryKey])].

(** Line 59: the key of [useFetchData],
    [[queryKey, endpoint].filter(Boolean)]. *)
Definition fetch_queryKey (queryKey endpoint : value) : value :=
  Arr (filter ToBoolean [queryKey; endpoint]).

Definition is_toast (e : effect) : bool :=
  match e with
  | toast_error _ => true
  | _ => false
  end.

(** *** The object that a mutation hook passes to [useMutation]

    [{ mutationFn: ..., onSuccess: ..., onError: ..., ...options }]: the
    three functions that the hook builds, then the spread of the caller's
    [options] (lines 87, 114, 151, 178 and 214). *)

(** A member of that object: one of the hook's own functions, or what the
    caller's [options] hold under the key.  [hook_onSuccess] is the closure
    that calls [invalidateQuery] and [hook_onError] the one that calls
    [handleMutationError]. *)
Inductive member (V : Type) : Type :=
| hook_mutationFn
| hook_onSuccess
| hook_onError
| from_options (v : V).
Arguments hook_mutationFn {V}.
Arguments hook_onSuccess {V}.
Arguments hook_onError {V}.
Arguments from_options {V} v.

(** The own property named [k], among own properties in their order. *)
Fixpoint own_member {A : Type} (obj : list (jsstring * A)) (k : jsstring)
  : option A :=
  match obj with
  | [] => None
  | (k', v) :: obj' => if str_eqb k' k then Some v else own_member obj' k
  end.

(** Defining the property [k] of an object literal: an existing key keeps
    its place and takes the new value, a new key goes to the end. *)
Fixpoint define_member {A : Type} (obj : list (jsstring * A)) (k : jsstring)
         (v : A) : list (jsstring * A) :=
  match obj with
  | [] => [(k, v)]
  | (k', v') :: obj' =>
      if str_eqb k' k then (k, v) :: obj'
      else (k', v') :: define_member obj' k v
  end.

(** [{ ...obj, ...source }]: the own enumerable properties of [source] are
    defined on the literal one after the other; [undefined] has none. *)
Definition spread {A : Type} (obj : list (jsstring * A))
           (source : option (list (jsstring * A))) : list (jsstring * A) :=
  match source with
  | None => obj
  | Some props =>
      fold_left (fun o kv => define_member o (fst kv) (snd kv)) props obj
  end.

(** The three members that every mutation hook writes before the spread. *)
Definition hook_members {V : Type} : list (jsstring * member V) :=
  [(lit "mutationFn", hook_mutationFn);
   (lit "onSuccess", hook_onSuccess);
   (lit "onError", hook_onError)].

(** The argument of [useMutation]; [options] is [None] when the caller
    passes none, and the own enumerable properties of the object
    otherwise. *)
Definition mutation_options {V : Type}
           (options : option (list (jsstring * V)))
  : list (jsstring * member V) :=
  spread hook_members
         (option_map (map (fun kv => (fst kv, from_options (snd kv))))
                     options).

(** The own enumerable properties of [options]. *)
Definition options_members {V : Type} (options : option (list (jsstring * V)))
  : list (jsstring * V) :=
  match options with
  | Some props => props
  | None => []
  end.

End MutationHooks.

(** ** The accordion (components/accordion) *)

Module Accordion.

(** A [Set<number>] of item indices: its elements in insertion order, each
    of them once. The indices are those that [items.map] hands out. *)
Definition index_set := list nat.

Definition Set_has (s : index_set) (i : nat) : bool := existsb (Nat.eqb i) s.

Definition Set_delete (s : index_set) (i : nat) : index_set :=
  filter (fun j => negb (Nat.eqb j i)) s.

Definition Set_add (s : index_set) (i : nat) : index_set :=
  if Set_has s i then s else s ++ [i].

Definition Set_clear (s : index_set) : index_set := [].

(** The updater that [toggleItem(index)] passes to [setOpenItems]: it works
    on a copy of the previous set and returns the copy. *)
Definition toggleItem (allowMultiple : bool) (index : nat) (prev : index_set)
  : index_set :=
  let next := prev in
  if Set_has next index then Set_delete next index
  else
    let next := if negb allowMultiple then Set_clear next else next in
    Set_add next index.

(** The open items after a series of clicks, from the initial empty set. *)
Definition after_clicks (allowMultiple : bool) (clicks : list nat)
  : index_set :=
  fold_left (fun open index => toggleItem allowMultiple index open) clicks [].

(** [isOpen] of item [idx]. *)
Definition isOpen (openItems : index_set) (idx : nat) : bool :=
  Set_has openItems idx.

End Accordion.

(** ** The length-limited input (hooks/useMaxLength) *)

Module MaxLength.
Import JS.

(** [s.length], a Number. *)
Definition length_number (s : jsstring) : float :=
  PrimFloat.of_uint63 (Uint63.of_Z (Z.of_nat (List.length s))).

(** The two pieces of state of the hook. *)
Record state : Type := mkState {
  value : jsstring;
  charCount : float
}.

(** [maxLength?: number]: [None] when the option is left out. *)
Definition max_length := option float.

Definition has_limit (maxLength : max_length) : bool :=
  match maxLength with
  | Some m => ToBoolean (Num m)
  | None => false
  end.

(** [useState(initialValue)] and [useState(initialValue.length)]. *)
Definition initial_state (initialValue : jsstring) : state :=
  mkState initialValue (length_number initialValue).

(** [handleChange(e)] with [e.target.value = newValue]. *)
Definition handleChange (maxLength : max_length) (st : state)
           (newValue : jsstring) : state :=
  if negb (has_limit maxLength)
     || match maxLength with
        | Some m => PrimFloat.leb (length_number newValue) m
        | None => false
        end
  then mkState newValue (length_number newValue)
  else st.

(** [remainingChars: maxLength ? maxLength - charCount : undefined] *)
Definition remainingChars (maxLength : max_length) (st : state) : JS.value :=
  match maxLength with
  | Some m => if ToBoolean (Num m) then Num (m - charCount st) else Undefined
  | None => Undefined
  end.

(** The state after a series of change events. *)
Definition after_changes (maxLength : max_length) (initialValue : jsstring)
           (inputs : list jsstring) : state :=
  fold_left (handleChange maxLength) inputs (initial_state initialValue).

End MaxLength.

(** ** The breakpoints (hooks/useDeviceSize) *)

Module DeviceSize.

Record device : Type := mkDevice {
  isMobile : bool;
  isTablet : bool;
  isDesktop : bool;
  width : float
}.

(** What the hook returns when its state holds [width]. *)
Definition useDeviceSize (width : float) : device :=
  mkDevice (PrimFloat.ltb width 768)
           (PrimFloat.leb 768 width && PrimFloat.ltb width 1024)
           (PrimFloat.leb 1024 width)
           width.

End DeviceSize.

(** ** Logging out (useLogout) *)

Module Logout.
Import JS.

(** [s.startsWith(prefix)] *)
Fixpoint startsWith (s prefix : jsstring) {struct prefix} : bool :=
  match prefix, s with
  | [], _ => true
  | a :: prefix', b :: s' => N.eqb a b && startsWith s' prefix'
  | _ :: _, [] => false
  end.

(** [s.split(sep)] for a separator that is not empty: the pieces between
    the occurrences of [sep], found from left to right without overlap.
    [skip] counts the code units still ahead of a separator whose first
    code unit has just been passed. *)
Fixpoint split_from (sep : jsstring) (skip : nat) (s : jsstring)
  : list jsstring :=
  match s with
  | [] => [[]]
  | c :: s' =>
      match skip with
      | S k => split_from sep k s'
      | O =>
          if startsWith s sep
          then [] :: split_from sep (List.length sep - 1) s'
          else match split_from sep 0 s' with
               | piece :: pieces => (c :: piece) :: pieces
               | [] => [[c]]
               end
      end
  end.

Definition String_split (s sep : jsstring) : list jsstring :=
  split_from sep 0 s.

(** [getRefreshToken()]; [document_cookie] is [None] where there is no
    [window], and the text of [document.cookie] otherwise. *)
Definition getRefreshToken (document_cookie : option jsstring) : value :=
  match document_cookie with
  | None => Null
  | Some text =>
      match find (fun c => startsWith c (lit "techverve_refresh_token="))
                 (String_split text (lit "; ")) with
      | Some cookie =>
          if ToBoolean (Str cookie)
          then match nth_error (String_split cookie (lit "=")) 1 with
               | Some token => Str token
               | None => Undefined
               end
          else Null
      | None => Null
      end
  end.

(** What [logout] does to the outside. *)
Inductive effect : Type :=
| setIsLoggingOut (flag : bool)
| postData_logout (refresh : value)
| document_cookie_set (text : jsstring)
| toast_success (message : jsstring)
| toast_error (message : jsstring)
| console_error (label : jsstring) (error : value)
| router_push (path : value).

(** [clearAuthCookies()]: one assignment to [document.cookie] per name. *)
Definition clearAuthCookies : list effect :=
  map (fun name =>
         document_cookie_set
           (lit name ++ lit "=; Path=/; Expires="
                ++ lit "Thu, 01 Jan 1970 00:00:01 GMT" ++ lit ";"))
      ["techverve_auth_token"; "techverve_refresh_token"; "techverve_role";
       "techverve_mentor_role"]%string.

(** How the awaited [postData] ends, when it is called. *)
Inductive request_outcome : Type :=
| fulfilled
| rejected (error : value).

(** How the promise of [logout] ends. *)
Inductive ending : Type :=
| Resolves
| Rejects (e : exn).

(** [if (redirectToLogin) router.push(redirectPath)] *)
Definition redirect (redirectToLogin redirectPath : value) : list effect :=
  if ToBoolean redirectToLogin then [router_push redirectPath] else [].

(** [logout()] in a browser whose [document.cookie] reads [document_cookie];
    the calls to the notification, the router and the console return. *)
Definition logout (redirectToLogin redirectPath : value)
           (document_cookie : jsstring) (request : request_outcome)
  : list effect * ending :=
  let refreshToken := getRefreshToken (Some document_cookie) in
  let sent :=
    if ToBoolean refreshToken then [postData_logout refreshToken] else [] in
  let caught :=
    if ToBoolean refreshToken
    then match request with
         | rejected error => Some error
         | fulfilled => None
         end
    else None in
  match caught with
  | None =>
      ([setIsLoggingOut true] ++ sent ++ clearAuthCookies
         ++ [toast_success (lit "Logged out successfully")]
         ++ redirect redirectToLogin redirectPath
         ++ [setIsLoggingOut false],
       Resolves)
  | Some error =>
      match (r <- get error (lit "response") ;; get_opt r (lit "status")) with
      | Normal status =>
          ([setIsLoggingOut true] ++ sent
             ++ [console_error (lit "Logout error:") error]
             ++ [if negb (strict_equals_number status 405)
                 then toast_error (lit "Logout failed, but cookies cleared")
                 else toast_success (lit "Logged out successfully")]
             ++ clearAuthCookies
             ++ redirect redirectToLogin redirectPath
             ++ [setIsLoggingOut false],
           Resolves)
      | Throw x =>
          ([setIsLoggingOut true] ++ sent
             ++ [console_error (lit "Logout error:") error]
             ++ [setIsLoggingOut false],
           Rejects x)
      end
  end.

Definition is_cookie_write (e : effect) : bool :=
  match e with
  | document_cookie_set _ => true
  | _ => false
  end.

Definition is_push (e : effect) : bool :=
  match e with
  | router_push _ => true
  | _ => false
  end.

Definition is_request (e : effect) : bool :=
  match e with
  | postData_logout _ => true
  | _ => false
  end.

Definition is_flag (e : effect) : bool :=
  match e with
  | setIsLoggingOut _ => true
  | _ => false
  end.

(** [document.cookie] for a list of name and value pairs. *)
Definition cookie_text (pairs : list (jsstring * jsstring)) : jsstring :=
  concat_with (lit "; ") (map (fun p => fst p ++ [61%N] ++ snd p) pairs).

(** The part of a value before its first [=]. *)
Fixpoint before_equals (v : jsstring) : jsstring :=
  match v with
  | [] => []
  | c :: v' => if N.eqb c 61 then [] else c :: before_equals v'
  end.

End Logout.

(** ** Property reads that run code

    [handleGenericError] names [error.response] on lines 12, 13, 14 and 57,
    [error.request] on line 57 and [error.message] on lines 62, 72 and 73,
    and every naming is a read of its own.  On a data property each read
    gives the same value and changes nothing.  A property may also be an
    accessor property: then each read runs its getter, which may read and
    write the state of the program.

    Here the classifier is embedded once more, on a state that is threaded
    through the reads.  The input is a value as above, or an object whose own
    properties may be accessors; what a getter hands back is a value as
    above. *)

Module Accessors.
Import JS ErrorHandler.

(** A computation on the state of the program: from the state before to a
    completion and the state after. *)
Definition stateful (store A : Type) : Type := store -> completion A * store.

Definition pure {store A : Type} (c : completion A) : stateful store A :=
  fun s => (c, s).

Definition ret_st {store A : Type} (a : A) : stateful store A := pure (ret a).

Definition bind_st {store A B : Type} (m : stateful store A)
           (k : A -> stateful store B) : stateful store B :=
  fun s =>
    match m s with
    | (Normal a, s') => k a s'
    | (Throw e, s') => (Throw e, s')
    end.

Notation "x <~ c ;; k" := (bind_st c (fun x => k))
  (at level 61, c at next level, right associativity) : js_scope.

(** An own property: a data property with its value, or an accessor
    property with its getter. *)
Inductive slot (store : Type) : Type :=
| data_slot (v : value)
| accessor_slot (getter : stateful store value).
Arguments data_slot {store} v.
Arguments accessor_slot {store} getter.

(** What a caller passes: a value whose properties are all data properties,
    or an object with accessor properties among its own properties. *)
Inductive input (store : Type) : Type :=
| plain (v : value)
| with_accessors (p : proto) (props : list (jsstring * slot store)).
Arguments plain {store} v.
Arguments with_accessors {store} p props.

Fixpoint own_slot {store : Type} (props : list (jsstring * slot store))
         (k : jsstring) : option (slot store) :=
  match props with
  | [] => None
  | (k', x) :: props' => if str_eqb k' k then Some x else own_slot props' k
  end.

(** [error.k]: a getter is run on every read. *)
Definition Get {store : Type} (error : input store) (k : jsstring)
  : stateful store value :=
  match error with
  | plain v => pure (get v k)
  | with_accessors p props =>
      match own_slot props k with
      | Some (data_slot x) => ret_st x
      | Some (accessor_slot getter) => getter
      | None => ret_st (inherited_property p k)
      end
  end.

(** [error?.k]: an object is not nullish. *)
Definition Get_opt {store : Type} (error : input store) (k : jsstring)
  : stateful store value :=
  match error with
  | plain v => pure (get_opt v k)
  | with_accessors _ _ => Get error k
  end.

(** [typeof error === "string"] *)
Definition is_string_input {store : Type} (error : input store) : bool :=
  match error with
  | plain v => is_string_type v
  | with_accessors _ _ => false
  end.

(** [error.trim()]: on an object the property [trim] is read, and what the
    read gives is not callable. *)
Definition call_trim_input {store : Type} (error : input store)
  : stateful store value :=
  match error with
  | plain v => pure (call_trim v)
  | with_accessors _ _ =>
      _ <~ Get error (lit "trim") ;; pure (Throw TypeError)
  end.

(** [error instanceof TypeError] *)
Definition instanceof_TypeError_input {store : Type} (error : input store)
  : bool :=
  match error with
  | plain v => instanceof_TypeError v
  | with_accessors TypeErrorPrototype _ => true
  | with_accessors _ _ => false
  end.

(** [Array.isArray(error)] *)
Definition Array_isArray_input {store : Type} (error : input store) : bool :=
  match error with
  | plain v => Array_isArray v
  | with_accessors _ _ => false
  end.

(** [error.length > 0] and [error[0]]; the classifier asks them of arrays
    only, and as in [length_gt_0] a [length] that is no Number is not
    converted. *)
Definition length_gt_0_input {store : Type} (error : input store)
  : stateful store value :=
  match error with
  | plain v => pure (length_gt_0 v)
  | with_accessors _ _ =>
      l <~ Get error (lit "length") ;;
      ret_st (Bool (match l with Num x => PrimFloat.ltb 0 x | _ => false end))
  end.

Definition element0_input {store : Type} (error : input store)
  : stateful store value :=
  match error with
  | plain v => pure (element0 v)
  | with_accessors _ _ => Get error (lit "0")
  end.

(** [a && b] in a condition. *)
Definition and_st {store : Type} (a : bool) (b : stateful store value)
  : stateful store bool :=
  if a then (v <~ b ;; ret_st (ToBoolean v)) else ret_st false.

(** Lines 17-53: from the two constants [status] and [data] on, no
    property of [error] is read any more. *)
Definition response_body (status data : value) : completion value :=
  c <- cond_and (is_string_type data) (call_trim data) ;;
  if c then ret data else
  found <- (if type_tag_eqb (typeof data) TyObject
               && negb (match data with Null => true | _ => false end)
            then object_data_message data
            else ret None) ;;
  match found with
  | Some r => ret r
  | None => ret (status_message status)
  end.

(** Lines 12-87, read by read. The result is a value, or the input itself
    (line 68). *)
Definition handleGenericError_st {store : Type} (error : input store)
  : stateful store (input store) :=
  r <~ Get_opt error (lit "response") ;;
  if ToBoolean r then
    r <~ Get error (lit "response") ;;
    status <~ pure (get_opt r (lit "status")) ;;
    r <~ Get error (lit "response") ;;
    data <~ pure (get_opt r (lit "data")) ;;
    m <~ pure (response_body status data) ;;
    ret_st (plain m)
  else
  rq <~ Get_opt error (lit "request") ;;
  c <~ and_st (ToBoolean rq)
              (rs <~ Get_opt error (lit "response") ;;
               ret_st (Bool (negb (ToBoolean rs)))) ;;
  if c then ret_st (plain (Str msg_no_response)) else
  c <~ and_st (instanceof_TypeError_input error)
              (m <~ Get_opt error (lit "message") ;;
               ret_st (Bool (strict_equals_string m (lit "Failed to fetch")))) ;;
  if c then ret_st (plain (Str msg_network)) else
  c <~ and_st (is_string_input error) (call_trim_input error) ;;
  if c then ret_st error else
  m <~ Get_opt error (lit "message") ;;
  c <~ and_st (is_string_type m)
              (m <~ Get error (lit "message") ;; pure (call_trim m)) ;;
  if c then (m <~ Get error (lit "message") ;; ret_st (plain m)) else
  c <~ and_st (Array_isArray_input error) (length_gt_0_input error) ;;
  first <~ (if c then
              e <~ element0_input error ;;
              c <~ and_st (is_string_type e)
                          (e <~ element0_input error ;; pure (call_trim e)) ;;
              if c then (e <~ element0_input error ;; ret_st (Some e)) else
              e <~ element0_input error ;;
              m <~ pure (get_opt e (lit "message")) ;;
              c <~ and_st (is_string_type m)
                          (e <~ element0_input error ;;
                           m <~ pure (get e (lit "message")) ;;
                           pure (call_trim m)) ;;
              if c then (e <~ element0_input error ;;
                         m <~ pure (get e (lit "message")) ;;
                         ret_st (Some m))
              else ret_st None
            else ret_st None) ;;
  match first with
  | Some r => ret_st (plain r)
  | None => ret_st (plain (Str msg_unexpected))
  end.

(** A result of the classifier of values, as a result here. *)
Definition as_result {store : Type} (c : completion value)
  : completion (input store) :=
  match c with
  | Normal r => Normal (plain r)
  | Throw e => Throw e
  end.

(** Reading a property of the input changes no state: every getter leaves
    the state as it finds it (it may still read it). *)
Definition quiet {store : Type} (error : input store) : Prop :=
  match error with
  | plain _ => True
  | with_accessors _ props =>
      forall k getter,
        In (k, accessor_slot getter) props -> forall s, snd (getter s) = s
  end.

(** A computation that leaves the state as it finds it. *)
Definition preserves {store A : Type} (m : stateful store A) : Prop :=
  forall s, snd (m s) = s.

(** A computation that does, in every state, what a completion says. *)
Definition agrees {store A : Type} (m : stateful store A) (c : completion A)
  : Prop :=
  forall s, m s = (c, s).

End Accessors.

(** ** Facts about the platform operations *)

Module Facts.
Import JS ErrorHandler.

Lemma bind_ret {A B : Type} (a : A) (k : A -> completion B) :
  bind (ret a) k = k a.
Proof. reflexivity. Qed.

Lemma str_eqb_eq (s t : jsstring) : str_eqb s t = true <-> s = t.
Proof.
  revert t; induction s as [|a s IH]; intros [|b t]; simpl; split;
    try congruence; try reflexivity.
  - intros H. apply andb_true_iff in H as [Hab Hst].
    apply N.eqb_eq in Hab. apply IH in Hst. congruence.
  - intros H. injection H as -> ->. rewrite N.eqb_refl.
    apply IH. reflexivity.
Qed.

Lemma str_eqb_refl (s : jsstring) : str_eqb s s = true.
Proof. apply str_eqb_eq. reflexivity. Qed.

Lemma trim_start_nil (s : jsstring) :
  trim_start s = [] <-> is_blank s = true.
Proof.
  unfold is_blank. induction s as [|c s IH]; simpl.
  - tauto.
  - destruct (is_white_space c); simpl.
    + exact IH.
    + split; discriminate.
Qed.

(** [s.trim()] is the empty String exactly when [s] is white space only. *)
Lemma String_trim_nil (s : jsstring) :
  String_trim s = [] <-> is_blank s = true.
Proof.
  unfold String_trim, trim_end. split.
  - intros H. apply trim_start_nil.
    destruct (trim_start s) as [|c t] eqn:E; [reflexivity|exfalso].
    assert (Hc : is_white_space c = false).
    { destruct s as [|a s']; simpl in E; [discriminate|].
      clear H. revert a E. induction s' as [|b s' IH]; intros a E; simpl in E.
      - destruct (is_white_space a) eqn:Ha; [discriminate|congruence].
      - destruct (is_white_space a) eqn:Ha.
        + apply (IH b). exact E.
        + congruence. }
    assert (Hr : rev (rev (trim_start (rev (c :: t)))) = rev []) by (f_equal; exact H).
    rewrite rev_involutive in Hr. simpl in Hr.
    apply trim_start_nil in Hr. unfold is_blank in Hr.
    rewrite forallb_app in Hr. simpl in Hr. rewrite Hc in Hr.
    rewrite andb_false_r in Hr. discriminate.
  - intros H. apply trim_start_nil in H. rewrite H. reflexivity.
Qed.

Lemma trim_truthy (s : jsstring) :
  ToBoolean (Str (String_trim s)) = negb (is_blank s).
Proof.
  destruct (is_blank s) eqn:E.
  - apply String_trim_nil in E. rewrite E. reflexivity.
  - destruct (String_trim s) eqn:T; [|reflexivity].
    apply String_trim_nil in T. congruence.
Qed.

(** [typeof v === "string" && v.trim()] never throws and tests
    [nonblank_string]. *)
Lemma nonblank_test (v : value) :
  cond_and (is_string_type v) (call_trim v) = ret (nonblank_string v).
Proof.
  destruct v; try reflexivity.
  unfold cond_and, is_string_type, call_trim. simpl typeof. simpl type_tag_eqb.
  cbv iota. rewrite bind_ret. rewrite trim_truthy. reflexivity.
Qed.

Lemma is_field_error_nonblank (v : value) :
  is_field_error v = ret (nonblank_string v).
Proof. apply nonblank_test. Qed.

Lemma nonblank_string_typed (v : value) :
  nonblank_string v = true -> is_string_type v = true.
Proof. destruct v; simpl; intros H; try discriminate H; reflexivity. Qed.

Lemma nonblank_truthy (v : value) :
  nonblank_string v = true -> ToBoolean v = true.
Proof.
  destruct v; simpl; try congruence.
  destruct s; simpl; [discriminate|reflexivity].
Qed.

Lemma get_opt_read (v : value) (k : jsstring) : get_opt v k = ret (read v k).
Proof.
  destruct v; try reflexivity.
  unfold get_opt, get, read; simpl. destruct (own_property props k); reflexivity.
Qed.

Lemma get_read (v : value) (k : jsstring) :
  is_nullish v = false -> get v k = ret (read v k).
Proof.
  destruct v; simpl; try congruence; try reflexivity.
  intros _. destruct (own_property props k); reflexivity.
Qed.

(** Runs the reads that cannot throw. *)
Ltac run_reads :=
  repeat first [rewrite get_opt_read | rewrite bind_ret].

Lemma truthy_not_nullish (v : value) :
  ToBoolean v = true -> is_nullish v = false.
Proof. destruct v; simpl; congruence. Qed.

Lemma object_not_nullish (v : value) :
  is_non_null_object v = true -> is_nullish v = false.
Proof. destruct v; simpl; congruence. Qed.

Lemma Array_flat_flatten (vs : list value) :
  Array_flat vs = flatten_one_level vs.
Proof.
  unfold flatten_one_level.
  induction vs as [|v vs IH]; simpl; [reflexivity|].
  destruct v; simpl; rewrite IH; reflexivity.
Qed.

Lemma Object_values_fields (data : value) :
  is_non_null_object data = true ->
  Object_values data = ret (field_values data).
Proof. destruct data; simpl; congruence. Qed.

(** [find] with the field-error predicate is a plain search. *)
Lemma Array_find_nonblank (l : list value) :
  Array_find is_field_error l =
  ret (match find nonblank_string l with
       | Some v => v
       | None => Undefined
       end).
Proof.
  induction l as [|v l IH]; simpl; [reflexivity|].
  rewrite is_field_error_nonblank, bind_ret.
  destruct (nonblank_string v); [reflexivity|exact IH].
Qed.

Lemma read_truthy_not_nullish (v : value) (k : jsstring) :
  ToBoolean (read v k) = true -> is_nullish v = false.
Proof. destruct v; simpl; congruence. Qed.

Lemma read_nonblank_not_nullish (v : value) (k : jsstring) :
  nonblank_string (read v k) = true -> is_nullish v = false.
Proof. destruct v; simpl; congruence. Qed.

Lemma typeof_object_not_null (v : value) :
  type_tag_eqb (typeof v) TyObject
  && negb (match v with Null => true | _ => false end)
  = is_non_null_object v.
Proof. destruct v; reflexivity. Qed.

(** [typeof v?.k === "string" && v.k.trim()] *)
Lemma string_field_test (v : value) (k : jsstring) :
  cond_and (is_string_type (read v k)) (m <- get v k ;; call_trim m)
  = ret (nonblank_string (read v k)).
Proof.
  destruct (is_nullish v) eqn:N.
  - destruct v; try discriminate N; reflexivity.
  - rewrite (get_read _ _ N), bind_ret. apply nonblank_test.
Qed.

(** [Array.isArray(v?.k) && v.k.length > 0] *)
Lemma array_field_test (v : value) (k : jsstring) :
  cond_and (Array_isArray (read v k)) (m <- get v k ;; length_gt_0 m)
  = ret (match read v k with Arr (_ :: _) => true | _ => false end).
Proof.
  destruct (is_nullish v) eqn:N.
  - destruct v; try discriminate N; reflexivity.
  - rewrite (get_read _ _ N), bind_ret.
    destruct (read v k) as [| | | | | |[|e l]|]; reflexivity.
Qed.

Lemma array_test (v : value) :
  cond_and (Array_isArray v) (length_gt_0 v)
  = ret (match v with Arr (_ :: _) => true | _ => false end).
Proof. destruct v as [| | | | | |[|e l]|]; reflexivity. Qed.

(** The statement returning the first element of a non-empty array field. *)
Lemma array_field_return (v : value) (k : jsstring) (e : value)
      (l : list value) :
  is_nullish v = false ->
  read v k = Arr (e :: l) ->
  (m <- get v k ;;
   e0 <- element0 m ;;
   if is_string_type e0
   then (m <- get v k ;; e1 <- element0 m ;; ret (Some e1))
   else (m <- get v k ;; e1 <- element0 m ;;
         r <- JSON_stringify e1 ;; ret (Some r)))
  = (r <- json_encoded_unless_string e ;; ret (Some r)).
Proof.
  intros N R. rewrite (get_read _ _ N), R, !bind_ret. simpl element0.
  rewrite !bind_ret. destruct e; reflexivity.
Qed.

(** The block guarded by [typeof data === "object" && data !== null]
    returns what rule 1.b selects, and falls through when it selects
    nothing. *)
Lemma object_data_message_rule (data : value) :
  is_non_null_object data = true ->
  object_data_message data =
  match rule_1b data with
  | Some c => r <- c ;; ret (Some r)
  | None => ret None
  end.
Proof.
  intros Hobj. pose proof (object_not_nullish _ Hobj) as N.
  unfold object_data_message, rule_1b, string_field, array_field, field_scan.
  run_reads.
  rewrite (string_field_test data (lit "message")), bind_ret.
  destruct (nonblank_string (read data (lit "message"))) eqn:M1.
  { rewrite (get_read _ _ N), !bind_ret. reflexivity. }
  rewrite (string_field_test data (lit "detail")), bind_ret.
  destruct (nonblank_string (read data (lit "detail"))) eqn:D1.
  { rewrite (get_read _ _ N), !bind_ret. reflexivity. }
  rewrite (array_field_test data (lit "message")), bind_ret.
  destruct (read data (lit "message")) as [| | | | | |[|e l]|] eqn:M2;
    try (rewrite (array_field_return data (lit "message") e l N M2);
         reflexivity).
  all: rewrite (array_field_test data (lit "detail")), bind_ret.
  all: destruct (read data (lit "detail")) as [| | | | | |[|e' l']|] eqn:D2;
    try (rewrite (array_field_return data (lit "detail") e' l' N D2);
         reflexivity).
  all: rewrite (Object_values_fields _ Hobj), bind_ret, Array_find_nonblank,
         bind_ret, Array_flat_flatten; simpl first_applicable.
  all: destruct (find nonblank_string (flatten_one_level (field_values data)))
         as [f|] eqn:F; simpl; try reflexivity.
  all: apply find_some in F as [_ F]; rewrite (nonblank_truthy _ F);
         reflexivity.
Qed.

(** The [response] block computes rule 1 from the status and the data of
    the response. *)
Lemma response_message_rule (error : value) :
  carries error "response" = true ->
  response_message error =
  rule_1 (read (read error (lit "response")) (lit "status"))
         (read (read error (lit "response")) (lit "data")).
Proof.
  unfold carries. intros T.
  pose proof (read_truthy_not_nullish _ _ T) as N.
  unfold response_message, rule_1.
  rewrite (get_read _ _ N). run_reads.
  rewrite nonblank_test, bind_ret.
  destruct (nonblank_string _) eqn:B; [reflexivity|].
  rewrite typeof_object_not_null.
  destruct (is_non_null_object _) eqn:O; [|reflexivity].
  rewrite (object_data_message_rule _ O).
  destruct (rule_1b _) as [[r|x]|]; reflexivity.
Qed.

Lemma cond_and_bool (a b : bool) : cond_and a (ret (Bool b)) = ret (a && b).
Proof. destruct a; reflexivity. Qed.

(** The block guarded by [Array.isArray(error) && error.length > 0]. *)
Lemma first_element_test (error : value) :
  (if match error with Arr (_ :: _) => true | _ => false end then
     e <- element0 error ;;
     c <- cond_and (is_string_type e) (e <- element0 error ;; call_trim e) ;;
     if c then (e <- element0 error ;; ret (Some e)) else
     e <- element0 error ;;
     m <- get_opt e (lit "message") ;;
     c <- cond_and (is_string_type m)
                   (e <- element0 error ;;
                    m <- get e (lit "message") ;; call_trim m) ;;
     if c then (e <- element0 error ;;
                m <- get e (lit "message") ;; ret (Some m))
     else ret None
   else ret None)
  = ret (first_element_message error).
Proof.
  destruct error as [| | | | | |[|e l]|]; try reflexivity.
  cbn [element0 hd]. run_reads. rewrite nonblank_test, bind_ret.
  unfold first_element_message.
  destruct (nonblank_string e) eqn:E; [reflexivity|].
  rewrite string_field_test, bind_ret.
  destruct (nonblank_string (read e (lit "message"))) eqn:M; [|reflexivity].
  rewrite (get_read _ _ (read_nonblank_not_nullish _ _ M)). reflexivity.
Qed.

(** The statements after the [response] block never throw and compute
    rules 2 to 7. *)
Lemma no_response_message_rules (error : value) :
  no_response_message error = ret (rules_2_to_7 error).
Proof.
  unfold no_response_message, rules_2_to_7, carries.
  run_reads. rewrite !cond_and_bool, bind_ret.
  destruct (ToBoolean (read error (lit "request"))
            && negb (ToBoolean (read error (lit "response"))));
    [reflexivity|].
  rewrite bind_ret.
  destruct (instanceof_TypeError error
            && strict_equals_string (read error (lit "message"))
                                    (lit "Failed to fetch"));
    [reflexivity|].
  rewrite nonblank_test, bind_ret.
  destruct (nonblank_string error); [reflexivity|].
  rewrite string_field_test, bind_ret.
  destruct (nonblank_string (read error (lit "message"))) eqn:M.
  { apply get_read. exact (read_nonblank_not_nullish _ _ M). }
  rewrite array_test, bind_ret, first_element_test, bind_ret.
  destruct (first_element_message error); reflexivity.
Qed.

(** *** The platform model on sample values *)

Example Number_toString_samples :
  map Number_toString
      [401; 1.5; -2.5; 0.5; 100; 1e21; 1e20; 0x1p-1074; 0x1p-1022;
       0x1.999999999999ap-4; 0x1.3333333333334p-2; 0x1.fffffffffffffp+1023;
       9007199254740992; 0x1.ad7f29abcaf48p-24; -0; nan; infinity;
       0x1p-1073; 0x1.8p-1073; 0x1p-1072; 0x1.4p-1072; 0x1.4p-1071;
       0x1.fffffffffffffp-1; 0x1.0000000000001p+0; 0x1.0c6f7a0b5ed8dp-20;
       0x1.ac53a7e04bcdap+66; 0x1p+63; 0x1.5p+6; 0x1.4b3fd5942cd96p-20;
       0x1.1666666666666p+2; 0x1.2p-1071]%float
  = map lit
        ["401"; "1.5"; "-2.5"; "0.5"; "100"; "1e+21"; "100000000000000000000";
         "5e-324"; "2.2250738585072014e-308"; "0.1"; "0.30000000000000004";
         "1.7976931348623157e+308"; "9007199254740992"; "1e-7"; "0"; "NaN";
         "Infinity";
         "1e-323"; "1.5e-323"; "2e-323"; "2.5e-323"; "5e-323";
         "0.9999999999999999"; "1.0000000000000002"; "0.000001";
         "123456789012345680000"; "9223372036854776000"; "84";
         "0.000001234"; "4.35"; "4.4e-323"]%string.
Proof. vm_compute. reflexivity. Qed.

Example JSON_stringify_samples :
  JSON_stringify
    (object [field "a" (Arr [Num 1.5; Undefined; Null; Bool false]);
             field "skipped" Undefined;
             mkProp (lit "hidden") false (Num 1);
             field "s" (Str [34; 10; 233; 55357]%N)])
  = Normal (Str ([123; 34]%N ++ lit "a" ++ [34]%N ++ lit ":[1.5,null,null,false],"
                 ++ [34]%N ++ lit "s" ++ [34]%N ++ lit ":"
                 ++ [34; 92; 34]%N ++ lit "\n" ++ [233]%N ++ lit "\ud83d"
                 ++ [34]%N ++ lit "}"))
  /\ JSON_stringify Undefined = Normal Undefined
  /\ JSON_stringify (Arr [Obj TypeErrorPrototype
                              [mkProp (lit "message") false (Str (lit "x"))]])
     = Normal (Str (lit "[{}]"))
  /\ JSON_stringify (object [field "n" (Arr [Num 1; BigInt 2])])
     = Throw TypeError.
Proof. vm_compute. repeat split. Qed.

Example String_trim_samples :
  String_trim ([32; 9; 160]%N ++ lit "a b" ++ [10; 8232; 65279]%N) = lit "a b"
  /\ String_trim [32; 12288; 13]%N = []
  /\ String_trim (lit "x") = lit "x".
Proof. repeat split. Qed.

(** The classifier is rule 1 when the input carries a [response], and
    rules 2 to 7 otherwise. *)
Lemma handleGenericError_rules (error : value) :
  handleGenericError error =
  if carries error "response"
  then rule_1 (read (read error (lit "response")) (lit "status"))
              (read (read error (lit "response")) (lit "data"))
  else ret (rules_2_to_7 error).
Proof.
  unfold handleGenericError. rewrite get_opt_read, bind_ret.
  fold (carries error "response").
  destruct (carries error "response") eqn:C.
  - apply response_message_rule. exact C.
  - apply no_response_message_rules.
Qed.

(** *** Strict equality with a finite Number literal *)

Lemma eqb_finite_literal (x c : float) (s : bool) (m : positive) (e : Z) :
  Prim2SF c = S754_finite s m e ->
  PrimFloat.eqb x c = true -> x = c.
Proof.
  intros Hc H. apply Prim2SF_inj. rewrite Hc.
  rewrite FloatAxioms.eqb_spec, Hc in H.
  unfold SFeqb, SFcompare in H.
  destruct (Prim2SF x) as [sx|sx| |sx mx ex]; try discriminate H;
    try (destruct sx, s; discriminate H).
  destruct sx, s; try discriminate H;
    destruct (Z.compare ex e) eqn:Ee; try discriminate H;
    apply Z.compare_eq in Ee; subst ex;
    destruct (Pos.compare_cont Eq mx m) eqn:Em; try discriminate H;
    apply Pos.compare_eq in Em; subst mx; reflexivity.
Qed.

(** [v === 401] holds for the Number 401 and for nothing else; likewise for
    the other status literals. *)
Lemma strict_equals_status (v : value) (c : float) :
  In c [401; 403; 404; 500]%float ->
  strict_equals_number v c = true <-> v = Num c.
Proof.
  intros Hc. split.
  - destruct v; simpl; try discriminate. intros H. f_equal.
    simpl in Hc.
    destruct Hc as [<-|[<-|[<-|[<-|[]]]]];
      eapply eqb_finite_literal; try exact H; reflexivity.
  - intros ->. simpl in Hc.
    destruct Hc as [<-|[<-|[<-|[<-|[]]]]]; reflexivity.
Qed.

(** *** Leaving a field out *)

Lemma own_property_without (props : list (property value)) (k k' : jsstring) :
  own_property (filter (fun q => negb (str_eqb (prop_key q) k)) props) k' =
  if str_eqb k k' then None else own_property props k'.
Proof.
  induction props as [|q props IH]; simpl.
  - destruct (str_eqb k k'); reflexivity.
  - destruct (str_eqb (prop_key q) k) eqn:Eq; simpl.
    + rewrite IH. apply str_eqb_eq in Eq. rewrite Eq.
      destruct (str_eqb k k'); reflexivity.
    + rewrite IH. destruct (str_eqb (prop_key q) k') eqn:Eq'; [|reflexivity].
      apply str_eqb_eq in Eq'. rewrite Eq' in Eq.
      destruct (str_eqb k k') eqn:E; [|reflexivity].
      apply str_eqb_eq in E. rewrite E, str_eqb_refl in Eq. discriminate.
Qed.

Lemma read_without_other (error : value) (k : string) (k' : jsstring) :
  str_eqb (lit k) k' = false ->
  read (without_field error k) k' = read error k'.
Proof.
  intros D. destruct error; try reflexivity.
  simpl. rewrite own_property_without, D. reflexivity.
Qed.

Lemma read_without_same (error : value) (k : string) :
  read (without_field error k) (lit k) =
  match error with
  | Obj p _ => inherited_property p (lit k)
  | _ => Undefined
  end.
Proof.
  destruct error; try reflexivity.
  simpl. rewrite own_property_without, str_eqb_refl. reflexivity.
Qed.

End Facts.

(** ** Properties of the classifier *)

Module Properties.
Import JS ErrorHandler Facts.

(** *** The scenarios of the specification, and the network failure *)

Example scenario_status_only :
  handleGenericError
    (object [field "response"
               (object [field "status" (Num 404); field "data" (object [])])])
  = Normal (Str (lit "Resource not found.")).
Proof. reflexivity. Qed.

Example scenario_string_body :
  handleGenericError
    (object [field "response"
               (object [field "status" (Num 200);
                        field "data" (Str (lit "Custom failure text"))])])
  = Normal (Str (lit "Custom failure text")).
Proof. reflexivity. Qed.

Example scenario_field_errors :
  handleGenericError
    (object [field "response"
               (object [field "status" (Num 400);
                        field "data"
                          (object [field "email"
                                     (Arr [Str (lit "Email is invalid")])])])])
  = Normal (Str (lit "Email is invalid")).
Proof. reflexivity. Qed.

Example scenario_no_reply :
  handleGenericError
    (object [field "request" (object []); field "response" Undefined])
  = Normal (Str (lit "No response from server. Please check your internet connection.")).
Proof. reflexivity. Qed.

Example scenario_plain_string :
  handleGenericError (Str (lit "Plain string error"))
  = Normal (Str (lit "Plain string error")).
Proof. reflexivity. Qed.

Example scenario_error_list :
  handleGenericError
    (Arr [object [field "message" (Str (lit "First error"))];
          object [field "message" (Str (lit "Second error"))]])
  = Normal (Str (lit "First error")).
Proof. reflexivity. Qed.

Example scenario_empty_object :
  handleGenericError (object [])
  = Normal (Str (lit "An unexpected error occurred. Please try again.")).
Proof. reflexivity. Qed.

Example scenario_null_body :
  handleGenericError
    (object [field "response"
               (object [field "status" (Num 401); field "data" Null])])
  = Normal (Str (lit "Unauthorized. Please log in again.")).
Proof. reflexivity. Qed.

Example failed_to_fetch :
  handleGenericError (new_TypeError (lit "Failed to fetch"))
  = Normal (Str (lit "Network error. Please check your connection."))
  /\ handleGenericError (new_TypeError (lit "x is not a function"))
     = Normal (Str (lit "x is not a function"))
  /\ handleGenericError (object [field "message" (Str (lit "Failed to fetch"))])
     = Normal (Str (lit "Failed to fetch")).
Proof. repeat split. Qed.

(** C1, as the specification states it, fails: with a BigInt as the first
    element of [response.data.message] the call [JSON.stringify] throws a
    TypeError, and [handleGenericError], which has no handler, lets it
    through. *)
Lemma handleGenericError_raises_on_bigint :
  handleGenericError
    (object [field "response"
               (object [field "status" (Num 400);
                        field "data"
                          (object [field "message" (Arr [BigInt 10])])])])
  = Throw TypeError.
Proof. reflexivity. Qed.

(** C1, amended: [handleGenericError] returns a result and does not raise,
    except through the one call it does not guard.  When the input gets to
    [JSON.stringify] with the element [e] (the array rule of 1.b has
    selected a first element that is not a string), the call ends exactly
    as [JSON.stringify(e)] ends: it raises when that raises and returns
    what that returns.  Every other input gets a result. *)
Theorem handleGenericError_returns_unless_stringify_raises (error : value) :
  match stringified_element error with
  | Some e => handleGenericError error = JSON_stringify e
  | None => exists r, handleGenericError error = Normal r
  end.
Proof.
  rewrite handleGenericError_rules. unfold stringified_element.
  destruct (carries error "response"); cbn [andb];
    [|eexists; reflexivity].
  generalize (read (read error (lit "response")) (lit "status")) as status.
  generalize (read (read error (lit "response")) (lit "data")) as data.
  intros data status. unfold rule_1.
  destruct (nonblank_string data) eqn:B.
  { destruct data; try discriminate B. eexists; reflexivity. }
  destruct (is_non_null_object data); cbn [andb]; [|eexists; reflexivity].
  unfold rule_1b, string_field, array_field, first_of_array_field, field_scan.
  destruct (nonblank_string (read data (lit "message")));
    cbn [andb negb first_applicable]; [eexists; reflexivity|].
  destruct (nonblank_string (read data (lit "detail")));
    cbn [andb negb first_applicable]; [eexists; reflexivity|].
  destruct (read data (lit "message")) as [| | | | | |[|e l]|];
    cbn [first_applicable];
    try (destruct e; cbn; first [reflexivity | eexists; reflexivity]).
  all: destruct (read data (lit "detail")) as [| | | | | |[|e' l']|];
    cbn [first_applicable];
    try (destruct e'; cbn; first [reflexivity | eexists; reflexivity]).
  all: destruct (find nonblank_string (flatten_one_level (field_values data)));
    eexists; reflexivity.
Qed.

(** A body with BigInts that the rules never hand to [JSON.stringify]
    gets a result; a body whose first [detail] is an object with a BigInt
    ends as [JSON.stringify] of that object does. *)
Lemma handleGenericError_returns_unless_stringify_raises_witness :
  (exists r,
      handleGenericError
        (object [field "response"
                   (object [field "status" (Num 404);
                            field "data"
                              (object [field "count" (BigInt 5);
                                       field "list" (Arr [BigInt 6])])])])
      = Normal r)
  /\ handleGenericError
       (object [field "response"
                  (object [field "status" (Num 400);
                           field "data"
                             (object [field "detail"
                                        (Arr [object [field "id" (BigInt 7)]])])])])
     = JSON_stringify (object [field "id" (BigInt 7)]).
Proof.
  split.
  - exact (handleGenericError_returns_unless_stringify_raises
             (object [field "response"
                        (object [field "status" (Num 404);
                                 field "data"
                                   (object [field "count" (BigInt 5);
                                            field "list" (Arr [BigInt 6])])])])).
  - exact (handleGenericError_returns_unless_stringify_raises
             (object [field "response"
                        (object [field "status" (Num 400);
                                 field "data"
                                   (object [field "detail"
                                              (Arr [object [field "id" (BigInt 7)]])])])])).
Defined.

(** C2: the statement that the result is always a string of length > 0 is
    broken by the array branch of rule 1.b, which returns element 0 without
    the non-blank test that every other branch applies: an empty first
    message comes back as the empty string, and an [undefined] first element
    comes back as [undefined], which is no string at all. *)
Theorem handleGenericError_empty_result :
  handleGenericError
    (object [field "response"
               (object [field "status" (Num 400);
                        field "data"
                          (object [field "message" (Arr [Str []])])])])
  = Normal (Str [])
  /\ handleGenericError
       (object [field "response"
                  (object [field "status" (Num 400);
                           field "data"
                             (object [field "detail" (Arr [Undefined])])])])
     = Normal Undefined.
Proof. split; reflexivity. Qed.

(** C3: for every input carrying a [response] (the field reads as a truthy
    value, which is what the code tests): a non-blank string
    [response.data] is returned verbatim, whatever the status; and when
    [response.data] is a non-null object, the result is what the first
    applicable rule of [rule_1b] gives (non-blank string [message], non-blank
    string [detail], first element of a non-empty array [message], first
    element of a non-empty array [detail], each JSON-encoded unless it is a
    string, then the first non-blank string among the field values flattened
    one level, in enumeration order). *)
Theorem response_body_message (error : value) :
  carries error "response" = true ->
  (nonblank_string (read (read error (lit "response")) (lit "data")) = true ->
   handleGenericError error
   = Normal (read (read error (lit "response")) (lit "data")))
  /\
  (is_non_null_object (read (read error (lit "response")) (lit "data")) = true ->
   forall r,
     rule_1b (read (read error (lit "response")) (lit "data")) = Some r ->
     handleGenericError error = r).
Proof.
  intros C. rewrite handleGenericError_rules, C. unfold rule_1. split.
  - intros ->. reflexivity.
  - intros O r R. rewrite O, R.
    destruct (read (read error (lit "response")) (lit "data"));
      try discriminate O; reflexivity.
Qed.

(** One input for each rule of the body, in the order of the rules. *)
Lemma response_body_message_witness :
  handleGenericError
    (object [field "response"
               (object [field "status" (Num 200);
                        field "data" (Str (lit "Custom failure text"))])])
  = Normal (Str (lit "Custom failure text"))
  /\ handleGenericError
       (object [field "response"
                  (object [field "status" (Num 400);
                           field "data"
                             (object [field "detail" (Str (lit "Detail text"));
                                      field "message" (Str (lit "Bad"))])])])
     = Normal (Str (lit "Bad"))
  /\ handleGenericError
       (object [field "response"
                  (object [field "status" (Num 400);
                           field "data"
                             (object [field "message" (Str (lit "  "));
                                      field "detail" (Str (lit "Detail text"))])])])
     = Normal (Str (lit "Detail text"))
  /\ handleGenericError
       (object [field "response"
                  (object [field "status" (Num 422);
                           field "data"
                             (object [field "detail" (Arr [Str (lit "d")]);
                                      field "message"
                                        (Arr [Arr [Num 1.5; Null; Bool true];
                                              Str (lit "later")])])])])
     = Normal (Str (lit "[1.5,null,true]"))
  /\ handleGenericError
       (object [field "response"
                  (object [field "status" (Num 422);
                           field "data"
                             (object [field "detail"
                                        (Arr [Str (lit "First");
                                              Str (lit "Second")])])])])
     = Normal (Str (lit "First"))
  /\ handleGenericError
       (object [field "response"
                  (object [field "status" (Num 400);
                           field "data"
                             (object [field "email"
                                        (Arr [Str (lit "Email is invalid")])])])])
     = Normal (Str (lit "Email is invalid")).
Proof.
  refine (conj _ (conj _ (conj _ (conj _ (conj _ _))))).
  - match goal with
    | |- handleGenericError ?x = _ =>
        exact (proj1 (response_body_message x eq_refl) eq_refl)
    end.
  - match goal with
    | |- handleGenericError ?x = ?r =>
        exact (proj2 (response_body_message x eq_refl) eq_refl r eq_refl)
    end.
  - match goal with
    | |- handleGenericError ?x = ?r =>
        exact (proj2 (response_body_message x eq_refl) eq_refl r eq_refl)
    end.
  - match goal with
    | |- handleGenericError ?x = ?r =>
        exact (proj2 (response_body_message x eq_refl) eq_refl r eq_refl)
    end.
  - match goal with
    | |- handleGenericError ?x = ?r =>
        exact (proj2 (response_body_message x eq_refl) eq_refl r eq_refl)
    end.
  - match goal with
    | |- handleGenericError ?x = ?r =>
        exact (proj2 (response_body_message x eq_refl) eq_refl r eq_refl)
    end.
Defined.

(** C4: for every input carrying a [response] whose body yields no message
    (the data is not a non-blank string, and rule 1.b finds nothing when the
    data is a non-null object), the result depends on the status alone:
    the four known codes have their own text and every other status, a
    missing one included, gives the generic text. *)
Theorem response_status_fallback (error : value) :
  carries error "response" = true ->
  nonblank_string (read (read error (lit "response")) (lit "data")) = false ->
  (is_non_null_object (read (read error (lit "response")) (lit "data")) = true ->
   rule_1b (read (read error (lit "response")) (lit "data")) = None) ->
  let status := read (read error (lit "response")) (lit "status") in
  (status = Num 401 ->
   handleGenericError error
   = Normal (Str (lit "Unauthorized. Please log in again.")))
  /\ (status = Num 403 ->
      handleGenericError error
      = Normal (Str (lit "You do not have permission to perform this action.")))
  /\ (status = Num 404 ->
      handleGenericError error = Normal (Str (lit "Resource not found.")))
  /\ (status = Num 500 ->
      handleGenericError error
      = Normal (Str (lit "A server error occurred. Please try again later.")))
  /\ (status <> Num 401 -> status <> Num 403 -> status <> Num 404 ->
      status <> Num 500 ->
      handleGenericError error
      = Normal (Str (lit "An error occurred. Please try again."))).
Proof.
  intros C B R status.
  assert (E : handleGenericError error = Normal (status_message status)).
  { rewrite handleGenericError_rules, C. unfold rule_1. rewrite B.
    destruct (is_non_null_object _); [rewrite R|]; reflexivity. }
  rewrite E. repeat split.
  - intros ->. reflexivity.
  - intros ->. reflexivity.
  - intros ->. reflexivity.
  - intros ->. reflexivity.
  - intros H1 H2 H3 H4. unfold status_message.
    assert (N : forall c, In c [401; 403; 404; 500]%float ->
                          status <> Num c ->
                          strict_equals_number status c = false).
    { intros c Hc Hn. destruct (strict_equals_number status c) eqn:S;
        [|reflexivity].
      apply (strict_equals_status status c Hc) in S. contradiction. }
    rewrite !N; simpl; auto 6.
Qed.

(** An empty body, a null body, and a response without a status. *)
Lemma response_status_fallback_witness :
  handleGenericError
    (object [field "response"
               (object [field "status" (Num 404); field "data" (object [])])])
  = Normal (Str (lit "Resource not found."))
  /\ handleGenericError
       (object [field "response"
                  (object [field "status" (Num 401); field "data" Null])])
     = Normal (Str (lit "Unauthorized. Please log in again."))
  /\ handleGenericError
       (object [field "response" (object [field "data" (Bool true)])])
     = Normal (Str (lit "An error occurred. Please try again.")).
Proof.
  split; [|split].
  - apply (response_status_fallback
             (object [field "response"
                        (object [field "status" (Num 404);
                                 field "data" (object [])])]));
      reflexivity.
  - apply (response_status_fallback
             (object [field "response"
                        (object [field "status" (Num 401);
                                 field "data" Null])]));
      reflexivity.
  - apply (response_status_fallback
             (object [field "response" (object [field "data" (Bool true)])]));
      try reflexivity; discriminate.
Defined.

(** C5: for every input carrying a [request] but no [response] (the first
    reads as a truthy value, the second does not, as line 57 tests them),
    the result is exactly the no-response text. *)
Theorem request_without_response (error : value) :
  carries error "request" = true ->
  carries error "response" = false ->
  handleGenericError error
  = Normal (Str (lit "No response from server. Please check your internet connection.")).
Proof.
  intros Q R. rewrite handleGenericError_rules, R.
  unfold rules_2_to_7. rewrite Q, R. reflexivity.
Qed.

(** The request went out and [response] is present but undefined. *)
Lemma request_without_response_witness :
  handleGenericError
    (object [field "request" (object []); field "response" Undefined])
  = Normal (Str (lit "No response from server. Please check your internet connection.")).
Proof.
  exact (request_without_response
           (object [field "request" (object []); field "response" Undefined])
           eq_refl eq_refl).
Defined.

(** C6: for every non-empty array input only element 0 is inspected: it is
    returned when it is a non-blank string, else its [message] is returned
    when that is a non-blank string, else the result is the catch-all text;
    the elements after the first do not affect the result. *)
Theorem array_first_element_only (e : value) (rest : list value) :
  handleGenericError (Arr (e :: rest))
  = Normal (if nonblank_string e then e
            else if nonblank_string (read e (lit "message"))
                 then read e (lit "message")
                 else Str (lit "An unexpected error occurred. Please try again."))
  /\ forall rest' : list value,
       handleGenericError (Arr (e :: rest'))
       = handleGenericError (Arr (e :: rest)).
Proof.
  assert (E : forall l, handleGenericError (Arr (e :: l))
                        = Normal (if nonblank_string e then e
                                  else if nonblank_string (read e (lit "message"))
                                       then read e (lit "message")
                                       else Str msg_unexpected)).
  { intros l. rewrite handleGenericError_rules.
    change (carries (Arr (e :: l)) "response") with false. cbv iota.
    unfold rules_2_to_7.
    change (carries (Arr (e :: l)) "request") with false.
    cbn [andb instanceof_TypeError nonblank_string read first_element_message].
    destruct (nonblank_string e); [reflexivity|].
    destruct (nonblank_string (read e (lit "message"))); reflexivity. }
  split.
  - apply E.
  - intros rest'. rewrite !E. reflexivity.
Qed.

(** C7: two inputs that both carry a [response] and agree on its status
    and data get the same result, whatever else they hold. *)
Theorem response_decides (error1 error2 : value) :
  carries error1 "response" = true ->
  carries error2 "response" = true ->
  read (read error1 (lit "response")) (lit "status")
  = read (read error2 (lit "response")) (lit "status") ->
  read (read error1 (lit "response")) (lit "data")
  = read (read error2 (lit "response")) (lit "data") ->
  handleGenericError error1 = handleGenericError error2.
Proof.
  intros C1 C2 S D.
  rewrite !handleGenericError_rules, C1, C2, S, D. reflexivity.
Qed.

(** A top-level [request] and [message] next to the response change
    nothing, and neither does a further field of the response. *)
Lemma response_decides_witness :
  handleGenericError
    (object [field "request" (object []);
             field "message" (Str (lit "top-level message"));
             field "response"
               (object [field "status" (Num 404);
                        field "data" (object [])])])
  = handleGenericError
      (object [field "response"
                 (object [field "status" (Num 404);
                          field "data" (object []);
                          field "headers" (object [])])]).
Proof.
  apply response_decides; reflexivity.
Defined.

(** C9: [response] and [request] are tested for truthiness, not for
    presence: an input whose [response] is falsy (null, undefined, false, 0,
    NaN, the empty string) is classified as the same input without that
    field, and likewise for a falsy [request]. In particular
    [{response: null, request: {}}] gives the no-response text and
    [{response: false, message: m}] gives [m] when [m] is non-blank. *)
Theorem falsy_field_as_absent (error : value) :
  (carries error "response" = false ->
   handleGenericError error
   = handleGenericError (without_field error "response"))
  /\ (carries error "request" = false ->
      handleGenericError error
      = handleGenericError (without_field error "request"))
  /\ handleGenericError
       (object [field "response" Null; field "request" (object [])])
     = Normal (Str (lit "No response from server. Please check your internet connection."))
  /\ forall m : jsstring,
       is_blank m = false ->
       handleGenericError
         (object [field "response" (Bool false); field "message" (Str m)])
       = Normal (Str m).
Proof.
  refine (conj _ (conj _ (conj _ _))).
  - intros C. destruct error; try reflexivity.
    rewrite !handleGenericError_rules. unfold carries in *.
    rewrite read_without_same, C.
    replace (ToBoolean (inherited_property p (lit "response"))) with false
      by (destruct p; reflexivity).
    unfold rules_2_to_7, carries.
    rewrite read_without_same, C.
    replace (ToBoolean (inherited_property p (lit "response"))) with false
      by (destruct p; reflexivity).
    rewrite !read_without_other by reflexivity.
    reflexivity.
  - intros C. destruct error; try reflexivity.
    rewrite !handleGenericError_rules. unfold carries in *.
    rewrite !read_without_other by reflexivity.
    destruct (ToBoolean (read (Obj p props) (lit "response")));
      [reflexivity|].
    unfold rules_2_to_7, carries.
    rewrite read_without_same, C.
    replace (ToBoolean (inherited_property p (lit "request"))) with false
      by (destruct p; reflexivity).
    rewrite !read_without_other by reflexivity.
    reflexivity.
  - reflexivity.
  - intros m B. rewrite handleGenericError_rules.
    change (carries (object [field "response" (Bool false);
                             field "message" (Str m)]) "response")
      with false.
    cbv iota. unfold rules_2_to_7.
    change (carries (object [field "response" (Bool false);
                             field "message" (Str m)]) "request")
      with false.
    change (read (object [field "response" (Bool false);
                          field "message" (Str m)]) (lit "message"))
      with (Str m).
    cbn [andb instanceof_TypeError object nonblank_string]. rewrite B.
    reflexivity.
Qed.

(** A [response] that is the Number 0, and a [response] that is [false]. *)
Lemma falsy_field_as_absent_witness :
  handleGenericError
    (object [field "response" (Num 0); field "message" (Str (lit "m"))])
  = handleGenericError
      (without_field
         (object [field "response" (Num 0); field "message" (Str (lit "m"))])
         "response")
  /\ handleGenericError
       (object [field "response" (Bool false);
                field "message" (Str (lit "Session expired"))])
     = Normal (Str (lit "Session expired")).
Proof.
  split.
  - exact (proj1 (falsy_field_as_absent
                    (object [field "response" (Num 0);
                             field "message" (Str (lit "m"))]))
                 eq_refl).
  - exact (proj2 (proj2 (proj2 (falsy_field_as_absent Undefined)))
                 (lit "Session expired") eq_refl).
Defined.

(** C10: null, undefined, every number, every boolean and every string
    that is empty or white space only fall through all rules, without
    raising, to the catch-all text. *)
Theorem primitives_fall_through :
  handleGenericError Null
  = Normal (Str (lit "An unexpected error occurred. Please try again."))
  /\ handleGenericError Undefined
     = Normal (Str (lit "An unexpected error occurred. Please try again."))
  /\ (forall x : float,
        handleGenericError (Num x)
        = Normal (Str (lit "An unexpected error occurred. Please try again.")))
  /\ (forall b : bool,
        handleGenericError (Bool b)
        = Normal (Str (lit "An unexpected error occurred. Please try again.")))
  /\ (forall s : jsstring,
        is_blank s = true ->
        handleGenericError (Str s)
        = Normal (Str (lit "An unexpected error occurred. Please try again."))).
Proof.
  refine (conj _ (conj _ (conj _ (conj _ _)))); try reflexivity.
  intros s B. rewrite handleGenericError_rules.
  change (carries (Str s) "response") with false. cbv iota.
  unfold rules_2_to_7.
  change (carries (Str s) "request") with false.
  cbn [andb instanceof_TypeError nonblank_string read first_element_message].
  rewrite B. reflexivity.
Qed.

(** Space, tab, no-break space and line feed. *)
Lemma primitives_fall_through_witness :
  handleGenericError (Str [32; 9; 160; 10]%N)
  = Normal (Str (lit "An unexpected error occurred. Please try again.")).
Proof.
  exact (proj2 (proj2 (proj2 (proj2 primitives_fall_through)))
               [32; 9; 160; 10]%N eq_refl).
Defined.

End Properties.

(** ** Repeated calls and the state of the program *)

Module AccessorProperties.
Import JS ErrorHandler Accessors Facts.

Lemma preserves_pure {store A : Type} (c : completion A) :
  preserves (pure (store := store) c).
Proof. intros s. reflexivity. Qed.

Lemma preserves_bind {store A B : Type} (m : stateful store A)
      (k : A -> stateful store B) :
  preserves m -> (forall a, preserves (k a)) -> preserves (bind_st m k).
Proof.
  intros Hm Hk s. unfold bind_st. specialize (Hm s).
  destruct (m s) as [[a|e] s']; simpl in Hm; subst s'.
  - apply Hk.
  - reflexivity.
Qed.

Lemma preserves_and {store : Type} (a : bool) (b : stateful store value) :
  preserves b -> preserves (and_st a b).
Proof.
  intros Hb. unfold and_st. destruct a.
  - apply preserves_bind; [exact Hb|]. intros v. apply preserves_pure.
  - apply preserves_pure.
Qed.

Lemma own_slot_In {store : Type} (props : list (jsstring * slot store))
      (k : jsstring) (x : slot store) :
  own_slot props k = Some x -> exists k', In (k', x) props.
Proof.
  induction props as [|[k' y] props IH]; simpl; [discriminate|].
  destruct (str_eqb k' k).
  - intros [= <-]. exists k'. left. reflexivity.
  - intros H. destruct (IH H) as [k'' Hin]. exists k''. right. exact Hin.
Qed.

Lemma Get_preserves {store : Type} (error : input store) (k : jsstring) :
  quiet error -> preserves (Get error k).
Proof.
  destruct error as [v|p props]; simpl; intros Q.
  - apply preserves_pure.
  - destruct (own_slot props k) as [[x|getter]|] eqn:E;
      try apply preserves_pure.
    destruct (own_slot_In _ _ _ E) as [k' Hin]. exact (Q k' getter Hin).
Qed.

Lemma Get_opt_preserves {store : Type} (error : input store) (k : jsstring) :
  quiet error -> preserves (Get_opt error k).
Proof.
  destruct error as [v|p props]; intros Q.
  - apply preserves_pure.
  - apply (Get_preserves (with_accessors p props) k Q).
Qed.

Ltac preserve Q :=
  repeat first
    [ assumption
    | apply preserves_pure
    | apply (Get_preserves _ _ Q)
    | apply (Get_opt_preserves _ _ Q)
    | apply preserves_and
    | apply preserves_bind; [|intros ?]
    | match goal with
      | |- preserves (if ?b then _ else _) => destruct b
      | |- preserves (match ?x with Some _ => _ | None => _ end) => destruct x
      end ].

Lemma handleGenericError_st_preserves {store : Type} (error : input store) :
  quiet error -> preserves (handleGenericError_st error).
Proof.
  intros Q. unfold handleGenericError_st.
  assert (T : preserves (call_trim_input error)).
  { destruct error; simpl; preserve Q. }
  assert (L : preserves (length_gt_0_input error)).
  { destruct error; simpl; preserve Q. }
  assert (E : preserves (element0_input error)).
  { destruct error; simpl; preserve Q. }
  preserve Q.
Qed.

Lemma agrees_pure {store A : Type} (c : completion A) :
  agrees (pure (store := store) c) c.
Proof. intros s. reflexivity. Qed.

Lemma agrees_bind {store A B : Type} (m : stateful store A)
      (k : A -> stateful store B) (c : completion A)
      (k' : A -> completion B) :
  agrees m c -> (forall a, agrees (k a) (k' a)) ->
  agrees (bind_st m k) (bind c k').
Proof.
  intros Hm Hk s. unfold bind_st. rewrite (Hm s).
  destruct c as [a|e]; [apply Hk|reflexivity].
Qed.

Lemma agrees_and {store : Type} (a : bool) (b : stateful store value)
      (c : completion value) :
  agrees b c -> agrees (and_st a b) (cond_and a c).
Proof.
  intros H. unfold and_st, cond_and. destruct a.
  - apply agrees_bind; [exact H|]. intros v. apply agrees_pure.
  - apply agrees_pure.
Qed.

Lemma as_result_bind {store A : Type} (c : completion A)
      (k : A -> completion value) :
  as_result (store := store) (bind c k) = bind c (fun a => as_result (k a)).
Proof. destruct c; reflexivity. Qed.

Lemma agrees_result {store : Type} (m : stateful store value)
      (c : completion value) :
  agrees m c -> agrees (r <~ m ;; ret_st (plain (store := store) r)) (as_result c).
Proof.
  intros H s. unfold bind_st. rewrite (H s). destruct c; reflexivity.
Qed.

(** Steps through two embeddings that read in the same order. *)
Ltac in_step :=
  repeat first
    [ apply agrees_pure
    | apply agrees_and
    | apply agrees_bind; [|intros ?]
    | match goal with
      | |- agrees (if ?b then _ else _) _ => destruct b
      end ].

(** On a value the reads are those of [handleGenericError], one by one, and
    the state is handed on as it is. *)
Lemma handleGenericError_st_plain {store : Type} (v : value) :
  agrees (handleGenericError_st (store := store) (plain v))
         (as_result (handleGenericError v)).
Proof.
  unfold handleGenericError_st, handleGenericError.
  cbn [Get Get_opt is_string_input call_trim_input instanceof_TypeError_input
       Array_isArray_input length_gt_0_input element0_input].
  rewrite as_result_bind. apply agrees_bind; [apply agrees_pure|]. intros r.
  destruct (ToBoolean r).
  - unfold response_message.
    repeat (rewrite as_result_bind; apply agrees_bind;
            [apply agrees_pure|intros ?]).
    apply agrees_result.
    match goal with
    | |- agrees (pure (response_body ?status ?data)) _ =>
        exact (agrees_pure (response_body status data))
    end.
  - unfold no_response_message.
    rewrite as_result_bind. apply agrees_bind; [apply agrees_pure|]. intros rq.
    rewrite as_result_bind. apply agrees_bind; [in_step|]. intros c1.
    destruct c1; [apply agrees_pure|].
    rewrite as_result_bind. apply agrees_bind; [in_step|]. intros c2.
    destruct c2; [apply agrees_pure|].
    rewrite as_result_bind. apply agrees_bind; [in_step|]. intros c3.
    destruct c3; [apply agrees_pure|].
    rewrite as_result_bind. apply agrees_bind; [apply agrees_pure|]. intros m.
    rewrite as_result_bind. apply agrees_bind; [in_step|]. intros c4.
    destruct c4; [apply agrees_result; apply agrees_pure|].
    rewrite as_result_bind. apply agrees_bind; [in_step|]. intros c5.
    rewrite as_result_bind. apply agrees_bind.
    + in_step.
    + intros [first|]; apply agrees_pure.
Qed.




End AccessorProperties.

(** ** Further properties of the rules *)

Module RuleProperties.
Import JS ErrorHandler Facts.

Lemma nonblank_string_inv (v : value) :
  nonblank_string v = true -> exists s, v = Str s /\ is_blank s = false.
Proof.
  destruct v; simpl; try discriminate. intros H. exists s. split; [reflexivity|].
  destruct (is_blank s); [discriminate|reflexivity].
Qed.

(** [JSON.stringify] gives a String or [undefined]. *)
Lemma JSON_stringify_result (e r : value) :
  JSON_stringify e = Normal r -> (exists s, r = Str s) \/ r = Undefined.
Proof.
  unfold JSON_stringify.
  destruct (SerializeJSONProperty e) as [[s|]|x]; simpl;
    try discriminate; intros [= <-].
  - left. exists s. reflexivity.
  - right. reflexivity.
Qed.

Lemma array_field_inv (data : value) (k : string) (c : completion value) :
  array_field data k = Some c ->
  exists e rest,
    read data (lit k) = Arr (e :: rest) /\ c = json_encoded_unless_string e.
Proof.
  unfold array_field.
  destruct (read data (lit k)) as [| | | | | |[|e rest]|]; try discriminate.
  intros [= <-]. exists e, rest. split; reflexivity.
Qed.

(** What rule 1.b can select: a non-blank string of the body, or the first
    element of a non-empty [message] or [detail] array. *)
Lemma rule_1b_inv (data : value) (c : completion value) :
  rule_1b data = Some c ->
  (exists s, c = Normal (Str s) /\ is_blank s = false)
  \/ (exists k e rest,
         (k = "message"%string \/ k = "detail"%string)
         /\ array_field data k = Some c
         /\ read data (lit k) = Arr (e :: rest)
         /\ c = json_encoded_unless_string e).
Proof.
  unfold rule_1b, string_field, field_scan. simpl first_applicable.
  destruct (nonblank_string (read data (lit "message"))) eqn:M.
  { intros [= <-]. left. destruct (nonblank_string_inv _ M) as [s [-> B]].
    exists s. split; [reflexivity|exact B]. }
  destruct (nonblank_string (read data (lit "detail"))) eqn:D.
  { intros [= <-]. left. destruct (nonblank_string_inv _ D) as [s [-> B]].
    exists s. split; [reflexivity|exact B]. }
  destruct (array_field data "message") as [c1|] eqn:A1.
  { intros [= <-]. right.
    destruct (array_field_inv _ _ _ A1) as [e [rest [R ->]]].
    exists "message"%string, e, rest. auto. }
  destruct (array_field data "detail") as [c2|] eqn:A2.
  { intros [= <-]. right.
    destruct (array_field_inv _ _ _ A2) as [e [rest [R ->]]].
    exists "detail"%string, e, rest. auto. }
  destruct (find _ _) as [v|] eqn:F; simpl; [|discriminate].
  intros [= <-]. left. apply find_some in F as [_ F].
  destruct (nonblank_string_inv _ F) as [s [-> B]].
  exists s. split; [reflexivity|exact B].
Qed.

(** Rules 2 to 7 always end in a non-blank string. *)
Lemma rules_2_to_7_nonblank (error : value) :
  exists s, rules_2_to_7 error = Str s /\ is_blank s = false.
Proof.
  unfold rules_2_to_7.
  destruct (carries error "request" && negb (carries error "response"));
    [eexists; split; reflexivity|].
  destruct (instanceof_TypeError error && _);
    [eexists; split; reflexivity|].
  destruct (nonblank_string error) eqn:E; [exact (nonblank_string_inv _ E)|].
  destruct (nonblank_string (read error (lit "message"))) eqn:M;
    [exact (nonblank_string_inv _ M)|].
  unfold first_element_message.
  destruct error as [| | | | | |[|e l]|]; try (eexists; split; reflexivity).
  destruct (nonblank_string e) eqn:E0; [exact (nonblank_string_inv _ E0)|].
  destruct (nonblank_string (read e (lit "message"))) eqn:M0;
    [exact (nonblank_string_inv _ M0)|].
  eexists; split; reflexivity.
Qed.

Lemma status_message_nonblank (status : value) :
  exists s, status_message status = Str s /\ is_blank s = false.
Proof.
  unfold status_message.
  repeat match goal with
         | |- context [if ?b then _ else _] => destruct b
         end; eexists; split; reflexivity.
Qed.

(** The classifier hands back a String or [undefined]. *)
Lemma classifier_result_type (error r : value) :
  handleGenericError error = Normal r -> (exists s, r = Str s) \/ r = Undefined.
Proof.
  rewrite handleGenericError_rules.
  destruct (carries error "response").
  - unfold rule_1.
    destruct (nonblank_string _) eqn:B.
    { intros [= <-]. destruct (nonblank_string_inv _ B) as [s [-> _]].
      left. exists s. reflexivity. }
    destruct (if is_non_null_object _ then _ else None) as [c|] eqn:R.
    + destruct (is_non_null_object _); [|discriminate R].
      intros H. subst c.
      destruct (rule_1b_inv _ _ R) as [[s [E _]]|[k [e [rest [_ [_ [_ E]]]]]]].
      * left. exists s. congruence.
      * unfold json_encoded_unless_string in E.
        destruct e;
          try (destruct (JSON_stringify_result _ _ (eq_sym E))
                 as [[s ->]| ->];
               [left; exists s; reflexivity|right; reflexivity]).
        left. exists s. unfold ret in E. congruence.
    + intros [= <-]. destruct (status_message_nonblank
                                 (read (read error (lit "response"))
                                       (lit "status"))) as [s [-> _]].
      left. exists s. reflexivity.
  - intros [= <-]. destruct (rules_2_to_7_nonblank error) as [s [-> _]].
    left. exists s. reflexivity.
Qed.

(** Every result that does not come out of [JSON.stringify] is a String:
    unless the array rule of 1.b hands a first element that is not a string
    to [JSON.stringify] (lines 32 and 35), the call returns, and what it
    returns is a String. *)
Theorem result_string_unless_stringified (error : value) :
  stringified_element error = None ->
  exists s, handleGenericError error = Normal (Str s).
Proof.
  rewrite handleGenericError_rules. unfold stringified_element.
  destruct (carries error "response"); cbn [andb].
  2:{ intros _. destruct (rules_2_to_7_nonblank error) as [s [-> _]].
      exists s. reflexivity. }
  generalize (read (read error (lit "response")) (lit "status")) as status.
  generalize (read (read error (lit "response")) (lit "data")) as data.
  intros data status. unfold rule_1.
  destruct (status_message_nonblank status) as [t [St _]].
  destruct (nonblank_string data) eqn:B.
  { intros _. destruct (nonblank_string_inv _ B) as [s [-> _]].
    exists s. reflexivity. }
  destruct (is_non_null_object data); cbn [andb];
    [|intros _; exists t; rewrite St; reflexivity].
  unfold rule_1b, string_field, array_field, first_of_array_field, field_scan.
  destruct (nonblank_string (read data (lit "message"))) eqn:M;
    cbn [andb negb first_applicable].
  { intros _. destruct (nonblank_string_inv _ M) as [s [-> _]].
    exists s. reflexivity. }
  destruct (nonblank_string (read data (lit "detail"))) eqn:D;
    cbn [andb negb first_applicable].
  { intros _. destruct (nonblank_string_inv _ D) as [s [-> _]].
    exists s. reflexivity. }
  assert (Scan : exists s,
             match first_applicable
                     [option_map (fun v => ret v)
                        (find nonblank_string
                              (flatten_one_level (field_values data)))] with
             | Some c => c
             | None => ret (status_message status)
             end = Normal (Str s)).
  { destruct (find nonblank_string (flatten_one_level (field_values data)))
      as [v|] eqn:F; simpl.
    - apply find_some in F as [_ F].
      destruct (nonblank_string_inv _ F) as [s [-> _]]. exists s. reflexivity.
    - exists t. rewrite St. reflexivity. }
  destruct (read data (lit "message")) as [| |mb|mx|ms|mz|[|e l]|mp mps];
    cbn [first_applicable];
    try (destruct e as [| | | |es| | |]; cbn; intros H; try discriminate H;
         exists es; reflexivity).
  all: destruct (read data (lit "detail")) as [| |db|dx|ds|dz|[|e' l']|dp dps];
    cbn [first_applicable];
    try (destruct e' as [| | | |es| | |]; cbn; intros H; try discriminate H;
         exists es; reflexivity).
  all: intros _; cbn [first_applicable] in Scan; exact Scan.
Qed.

(** A body whose [message] is a string: the BigInt under [detail] is never
    looked at. *)
Lemma result_string_unless_stringified_witness :
  exists s,
    handleGenericError
      (object [field "response"
                 (object [field "status" (Num 400);
                          field "data"
                            (object [field "message" (Str (lit "ok"));
                                     field "detail" (Arr [BigInt 1])])])])
    = Normal (Str s).
Proof. apply result_string_unless_stringified. reflexivity. Defined.

(** Outside the array branch of rule 1.b the result is always a non-blank
    string: when neither [response.data.message] nor [response.data.detail]
    is a non-empty array (in particular when there is no [response]), the
    call returns a String with a character that is not white space. *)
Theorem result_nonblank_without_array_field (error : value) :
  array_field (read (read error (lit "response")) (lit "data")) "message"
  = None ->
  array_field (read (read error (lit "response")) (lit "data")) "detail"
  = None ->
  exists s, handleGenericError error = Normal (Str s) /\ is_blank s = false.
Proof.
  intros A1 A2. rewrite handleGenericError_rules.
  destruct (carries error "response").
  - unfold rule_1.
    destruct (nonblank_string _) eqn:B.
    { destruct (nonblank_string_inv _ B) as [s [E Bs]]. exists s.
      rewrite E. split; [reflexivity|exact Bs]. }
    destruct (if is_non_null_object _ then _ else None) as [c|] eqn:R.
    + destruct (is_non_null_object _); [|discriminate R].
      destruct (rule_1b_inv _ _ R) as [[s [E Bs]]|[k [e [rest [K [A _]]]]]].
      * exists s. split; [exact E|exact Bs].
      * destruct K as [-> | ->]; congruence.
    + destruct (status_message_nonblank
                  (read (read error (lit "response")) (lit "status")))
        as [s [E Bs]].
      exists s. rewrite E. split; [reflexivity|exact Bs].
  - destruct (rules_2_to_7_nonblank error) as [s [E Bs]].
    exists s. rewrite E. split; [reflexivity|exact Bs].
Qed.

(** A body whose [message] is an empty array and whose [detail] is blank. *)
Lemma result_nonblank_without_array_field_witness :
  exists s,
    handleGenericError
      (object [field "response"
                 (object [field "status" (Num 500);
                          field "data"
                            (object [field "message" (Arr []);
                                     field "detail" (Str (lit " "))])])])
    = Normal (Str s)
    /\ is_blank s = false.
Proof.
  apply result_nonblank_without_array_field; reflexivity.
Defined.

(** Line 62: without a [response] and without a [request], an instance of
    TypeError whose message is exactly "Failed to fetch" gives the network
    text; the same message on an input that is no TypeError is returned as
    it is. *)
Theorem failed_to_fetch_rule (error : value) :
  carries error "response" = false ->
  carries error "request" = false ->
  read error (lit "message") = Str (lit "Failed to fetch") ->
  handleGenericError error
  = Normal (Str (if instanceof_TypeError error
                 then lit "Network error. Please check your connection."
                 else lit "Failed to fetch")).
Proof.
  intros R Q M. rewrite handleGenericError_rules, R.
  unfold rules_2_to_7. rewrite R, Q, M. simpl andb.
  destruct (instanceof_TypeError error) eqn:T; simpl.
  - reflexivity.
  - destruct error; try discriminate M. reflexivity.
Qed.

Lemma failed_to_fetch_rule_witness :
  handleGenericError (new_TypeError (lit "Failed to fetch"))
  = Normal (Str (lit "Network error. Please check your connection."))
  /\ handleGenericError
       (Obj ErrorPrototype
            [mkProp (lit "message") false (Str (lit "Failed to fetch"))])
     = Normal (Str (lit "Failed to fetch")).
Proof.
  split.
  - exact (failed_to_fetch_rule (new_TypeError (lit "Failed to fetch"))
                                eq_refl eq_refl eq_refl).
  - exact (failed_to_fetch_rule
             (Obj ErrorPrototype
                  [mkProp (lit "message") false (Str (lit "Failed to fetch"))])
             eq_refl eq_refl eq_refl).
Defined.

(** Line 72: an input without a truthy [response] or [request] whose
    [message] is a non-blank string gets that message back, character for
    character, unless it is the TypeError of a failed fetch; the message may
    be an own property, enumerable or not. *)
Theorem message_rule (error : value) :
  carries error "response" = false ->
  carries error "request" = false ->
  instanceof_TypeError error
  && strict_equals_string (read error (lit "message")) (lit "Failed to fetch")
  = false ->
  nonblank_string (read error (lit "message")) = true ->
  handleGenericError error = Normal (read error (lit "message")).
Proof.
  intros R Q T M. rewrite handleGenericError_rules, R.
  unfold rules_2_to_7. rewrite R, Q, T, M. simpl andb.
  destruct error; try discriminate M. reflexivity.
Qed.

Lemma message_rule_witness :
  handleGenericError (new_TypeError (lit "x is not a function"))
  = Normal (Str (lit "x is not a function")).
Proof.
  exact (message_rule (new_TypeError (lit "x is not a function"))
                      eq_refl eq_refl eq_refl eq_refl).
Defined.

(** Line 67: a string with a character that is not white space is returned
    as it is, white space around it included. *)
Theorem string_rule (s : jsstring) :
  is_blank s = false ->
  handleGenericError (Str s) = Normal (Str s).
Proof.
  intros B. rewrite handleGenericError_rules.
  change (carries (Str s) "response") with false. cbv iota.
  unfold rules_2_to_7.
  change (carries (Str s) "request") with false.
  cbn [andb instanceof_TypeError nonblank_string]. rewrite B. reflexivity.
Qed.

Lemma string_rule_witness :
  handleGenericError (Str (lit "  padded message "))
  = Normal (Str (lit "  padded message ")).
Proof. exact (string_rule (lit "  padded message ") eq_refl). Defined.

(** What the classifier does with a string. *)
Lemma string_input (s : jsstring) :
  handleGenericError (Str s)
  = Normal (Str (if is_blank s
                 then lit "An unexpected error occurred. Please try again."
                 else s)).
Proof.
  rewrite handleGenericError_rules.
  change (carries (Str s) "response") with false. cbv iota.
  unfold rules_2_to_7.
  change (carries (Str s) "request") with false.
  cbn [andb instanceof_TypeError nonblank_string].
  destruct (is_blank s); reflexivity.
Qed.

(** A second pass over a result of the classifier: a result that is a
    non-blank string is handed back as it is; a blank string, which the
    array rule of 1.b can return, and [undefined], which [JSON.stringify]
    can return, are replaced by the catch-all text. *)
Theorem second_pass (error r : value) :
  handleGenericError error = Normal r ->
  handleGenericError r
  = Normal (if nonblank_string r then r
            else Str (lit "An unexpected error occurred. Please try again.")).
Proof.
  intros H. destruct (classifier_result_type _ _ H) as [[s ->]| ->].
  - rewrite string_input. cbn [nonblank_string].
    destruct (is_blank s); reflexivity.
  - reflexivity.
Qed.

(** The blank first [message] comes back from the first pass and is
    replaced in the second. *)
Lemma second_pass_witness :
  handleGenericError (Str (lit "  "))
  = Normal (Str (lit "An unexpected error occurred. Please try again.")).
Proof.
  exact (second_pass
           (object [field "response"
                      (object [field "data"
                                 (object [field "message"
                                            (Arr [Str (lit "  ")])])])])
           (Str (lit "  ")) eq_refl).
Defined.

(** A truthy [response] that is not an object ([true], a non-zero number,
    a non-empty string, an array) has neither status nor data: the result
    is the generic text of rule 1. *)
Theorem response_without_fields (error : value) :
  carries error "response" = true ->
  match read error (lit "response") with Obj _ _ => False | _ => True end ->
  handleGenericError error
  = Normal (Str (lit "An error occurred. Please try again.")).
Proof.
  intros C N. rewrite handleGenericError_rules, C.
  destruct (read error (lit "response")); try contradiction; reflexivity.
Qed.

Lemma response_without_fields_witness :
  handleGenericError (object [field "response" (Str (lit "Bad Gateway"))])
  = Normal (Str (lit "An error occurred. Please try again.")).
Proof.
  exact (response_without_fields
           (object [field "response" (Str (lit "Bad Gateway"))]) eq_refl I).
Defined.

End RuleProperties.

(** ** Properties of the mutation hooks *)

Module MutationHooksProperties.
Import JS ErrorHandler Facts RuleProperties MutationHooks.

Lemma new_Error_of_result (error r : value) :
  handleGenericError error = Normal r -> exists thrown, new_Error r = Some thrown.
Proof.
  intros H. destruct (classifier_result_type _ _ H) as [[s ->]| ->];
    eexists; reflexivity.
Qed.


Lemma str_eqb_trans_false (a b c : jsstring) :
  str_eqb a b = true -> str_eqb b c = false -> str_eqb a c = false.
Proof.
  intros H. apply str_eqb_eq in H. subst b. exact (fun x => x).
Qed.

Lemma own_member_define {A : Type} (obj : list (jsstring * A))
      (k k' : jsstring) (v : A) :
  own_member (define_member obj k v) k'
  = if str_eqb k k' then Some v else own_member obj k'.
Proof.
  induction obj as [|[k0 v0] obj IH]; simpl.
  - reflexivity.
  - destruct (str_eqb k0 k) eqn:E; simpl.
    + destruct (str_eqb k k') eqn:E'; [reflexivity|].
      rewrite (str_eqb_trans_false _ _ _ E E'). reflexivity.
    + destruct (str_eqb k0 k') eqn:E0.
      * destruct (str_eqb k k') eqn:E'; [|reflexivity].
        apply str_eqb_eq in E0, E'. subst. rewrite str_eqb_refl in E.
        discriminate E.
      * exact IH.
Qed.

(** After the spread a key holds what the last property of that name in the
    source holds, and what the literal held when the source has none. *)
Lemma own_member_spread {A : Type} (props obj : list (jsstring * A))
      (k : jsstring) :
  own_member (spread obj (Some props)) k
  = match own_member (rev props) k with
    | Some v => Some v
    | None => own_member obj k
    end.
Proof.
  unfold spread. revert obj.
  induction props as [|[k0 v0] props IH] using rev_ind; intros obj.
  - reflexivity.
  - rewrite fold_left_app, rev_app_distr. simpl.
    rewrite own_member_define. destruct (str_eqb k0 k); [reflexivity|].
    apply IH.
Qed.

Lemma own_member_In {A : Type} (obj : list (jsstring * A)) (k : jsstring)
      (v : A) :
  own_member obj k = Some v -> In (k, v) obj.
Proof.
  induction obj as [|[k0 v0] obj IH]; simpl; [discriminate|].
  destruct (str_eqb k0 k) eqn:E.
  - intros [= <-]. apply str_eqb_eq in E. subst. left. reflexivity.
  - intros H. right. exact (IH H).
Qed.

Lemma own_member_None {A : Type} (obj : list (jsstring * A)) (k : jsstring) :
  own_member obj k = None -> forall v, ~ In (k, v) obj.
Proof.
  induction obj as [|[k0 v0] obj IH]; simpl; intros H v; [tauto|].
  destruct (str_eqb k0 k) eqn:E; [discriminate H|].
  intros [F|F].
  - injection F as -> _. rewrite str_eqb_refl in E. discriminate E.
  - exact (IH H v F).
Qed.

(** The object that a mutation hook passes to [useMutation] holds the
    hook's own function under [mutationFn], [onSuccess] or [onError] exactly
    when [options] has no own enumerable property of that name; otherwise the
    spread, which comes last in the literal, has put there what [options]
    holds, whatever it is.  So an [onError] in the options takes the place of
    the closure that calls [handleMutationError], and an [onSuccess] the
    place of the closure that calls [invalidateQuery]. *)
Theorem options_replace_hook_members (V : Type)
        (options : option (list (jsstring * V))) (k : jsstring)
        (h : member V) :
  In (k, h) hook_members ->
  (own_member (mutation_options options) k = Some h
   /\ forall v, ~ In (k, v) (options_members options))
  \/ (exists v, In (k, v) (options_members options)
                /\ own_member (mutation_options options) k
                   = Some (from_options v)).
Proof.
  intros Hk.
  assert (Base : own_member (hook_members (V := V)) k = Some h).
  { destruct Hk as [H|[H|[H|[]]]]; injection H as <- <-; reflexivity. }
  unfold mutation_options.
  destruct options as [props|]; cbn [option_map options_members].
  2:{ left. split; [exact Base|]. intros v []. }
  rewrite own_member_spread, <- map_rev.
  assert (Map : forall l : list (jsstring * V),
             own_member (map (fun kv => (fst kv, from_options (snd kv))) l) k
             = option_map from_options (own_member l k)).
  { induction l as [|[k0 v0] l IH]; simpl; [reflexivity|].
    destruct (str_eqb k0 k); [reflexivity|exact IH]. }
  rewrite Map.
  destruct (own_member (rev props) k) as [v|] eqn:E; cbn [option_map].
  - right. apply own_member_In in E. apply In_rev in E.
    exists v. split; [exact E|reflexivity].
  - left. split; [exact Base|]. intros v Hv. apply (in_rev props) in Hv.
    exact (own_member_None _ _ E v Hv).
Qed.

(** Options with an [onError] that is [undefined], next to a [retry]. *)
Lemma options_replace_hook_members_witness :
  exists v,
    In (lit "onError", v)
       (options_members
          (Some [(lit "retry", Num 3); (lit "onError", Undefined)]))
    /\ own_member
         (mutation_options
            (Some [(lit "retry", Num 3); (lit "onError", Undefined)]))
         (lit "onError")
       = Some (from_options v).
Proof.
  destruct (options_replace_hook_members
              value (Some [(lit "retry", Num 3); (lit "onError", Undefined)])
              (lit "onError") hook_onError)
    as [[_ N]|H].
  - right. right. left. reflexivity.
  - exfalso. apply (N Undefined). right. left. reflexivity.
  - exact H.
Defined.



Lemma array_not_own_first_element (v : value) (l : list value) :
  v <> Arr (v :: l).
Proof.
  revert l.
  induction v as [| |b|x|s|z|l0 IH|p props IH] using value_ind; intros l;
    try discriminate.
  intros [= E]. rewrite E in IH. inversion IH as [|? ? Hhd _]; subst.
  apply (Hhd l). f_equal. exact E.
Qed.

(** The key that the mutation hooks invalidate against the key under which
    [useFetchData] stores the query: for a truthy key that is no array the
    invalidated key is an initial segment of the stored one; for a non-empty
    array key it never is, since the stored key holds the whole array as its
    first element. *)
Theorem invalidated_key_and_fetch_key (queryKey endpoint : value) :
  ToBoolean queryKey = true ->
  (Array_isArray queryKey = false ->
   exists rest,
     invalidateQuery queryKey = [invalidateQueries (Arr [queryKey])]
     /\ fetch_queryKey queryKey endpoint = Arr ([queryKey] ++ rest))
  /\ (forall K, queryKey = Arr K -> K <> [] ->
      invalidateQuery queryKey = [invalidateQueries (Arr K)]
      /\ forall rest, fetch_queryKey queryKey endpoint <> Arr (K ++ rest)).
Proof.
  intros T. split.
  - intros A. exists (filter ToBoolean [endpoint]).
    unfold invalidateQuery, fetch_queryKey. simpl filter. rewrite T, A.
    split; reflexivity.
  - intros K -> N. split; [reflexivity|].
    intros rest. unfold fetch_queryKey. simpl filter.
    destruct K as [|k K']; [contradiction|].
    intros [= E _]. exact (array_not_own_first_element k K' (eq_sym E)).
Qed.

Lemma invalidated_key_and_fetch_key_witness :
  (exists rest,
      invalidateQuery (Str (lit "users"))
      = [invalidateQueries (Arr [Str (lit "users")])]
      /\ fetch_queryKey (Str (lit "users")) (Str (lit "/api/users"))
         = Arr ([Str (lit "users")] ++ rest))
  /\ (invalidateQuery (Arr [Str (lit "users"); Num 1])
      = [invalidateQueries (Arr [Str (lit "users"); Num 1])]
      /\ forall rest,
           fetch_queryKey (Arr [Str (lit "users"); Num 1])
                          (Str (lit "/api/users"))
           <> Arr ([Str (lit "users"); Num 1] ++ rest)).
Proof.
  split.
  - exact (proj1 (invalidated_key_and_fetch_key
                    (Str (lit "users")) (Str (lit "/api/users")) eq_refl)
                 eq_refl).
  - apply (proj2 (invalidated_key_and_fetch_key
                    (Arr [Str (lit "users"); Num 1])
                    (Str (lit "/api/users")) eq_refl)).
    + reflexivity.
    + discriminate.
Defined.

End MutationHooksProperties.

(** ** Properties of the accordion *)

Module AccordionProperties.
Import Accordion.

Lemma Set_has_delete (s : index_set) (i j : nat) :
  Set_has (Set_delete s i) j = Set_has s j && negb (Nat.eqb j i).
Proof.
  unfold Set_has, Set_delete. induction s as [|k s IH]; simpl; [reflexivity|].
  destruct (Nat.eqb k i) eqn:K; simpl.
  - rewrite IH. apply Nat.eqb_eq in K. subst k.
    destruct (Nat.eqb j i) eqn:J; simpl.
    + rewrite andb_false_r. reflexivity.
    + rewrite andb_true_r. reflexivity.
  - rewrite IH. destruct (Nat.eqb j k) eqn:J; simpl; [|reflexivity].
    apply Nat.eqb_eq in J. subst k. rewrite K. reflexivity.
Qed.

Lemma Set_has_add (s : index_set) (i j : nat) :
  Set_has (Set_add s i) j = Set_has s j || Nat.eqb j i.
Proof.
  unfold Set_add. destruct (Set_has s i) eqn:H.
  - destruct (Nat.eqb j i) eqn:J; [|rewrite orb_false_r; reflexivity].
    apply Nat.eqb_eq in J. subst j. rewrite H. reflexivity.
  - unfold Set_has. rewrite existsb_app. simpl. rewrite orb_false_r.
    reflexivity.
Qed.

(** Which items are open after a click on [index]: the clicked item has
    changed sides; the others stay as they were, except that opening an
    item closes all others when [allowMultiple] is off. *)
Theorem toggleItem_open (allowMultiple : bool) (index idx : nat)
        (prev : index_set) :
  isOpen (toggleItem allowMultiple index prev) idx
  = if Nat.eqb idx index then negb (isOpen prev index)
    else if allowMultiple || isOpen prev index then isOpen prev idx
         else false.
Proof.
  unfold isOpen, toggleItem.
  destruct (Set_has prev index) eqn:H.
  - rewrite Set_has_delete, orb_true_r.
    destruct (Nat.eqb idx index); simpl.
    + apply andb_false_r.
    + apply andb_true_r.
  - rewrite Set_has_add. destruct allowMultiple; simpl.
    + destruct (Nat.eqb idx index) eqn:E; simpl.
      * apply orb_true_r.
      * apply orb_false_r.
    + destruct (Nat.eqb idx index); reflexivity.
Qed.

(** Membership after a click when only one item may be open. *)
Lemma isOpen_toggle_single (index idx : nat) (prev : index_set) :
  isOpen (toggleItem false index prev) idx
  = if Nat.eqb idx index then negb (isOpen prev index)
    else isOpen prev index && isOpen prev idx.
Proof.
  unfold isOpen, toggleItem.
  destruct (Set_has prev index) eqn:H.
  - rewrite Set_has_delete.
    destruct (Nat.eqb idx index); simpl.
    + apply andb_false_r.
    + apply andb_true_r.
  - simpl negb. cbv iota. rewrite Set_has_add.
    destruct (Nat.eqb idx index); reflexivity.
Qed.

(** Without [allowMultiple], whatever is clicked and in whatever order,
    at most one item is open. *)
Theorem single_mode_one_open (clicks : list nat) (i j : nat) :
  isOpen (after_clicks false clicks) i = true ->
  isOpen (after_clicks false clicks) j = true ->
  i = j.
Proof.
  unfold after_clicks.
  assert (G : forall open,
             (forall a b, isOpen open a = true -> isOpen open b = true -> a = b) ->
             isOpen (fold_left (fun o k => toggleItem false k o) clicks open) i
             = true ->
             isOpen (fold_left (fun o k => toggleItem false k o) clicks open) j
             = true ->
             i = j).
  { induction clicks as [|c clicks IH]; intros open Hone; simpl.
    - apply Hone.
    - apply IH. intros a b. rewrite !isOpen_toggle_single.
      destruct (Nat.eqb a c) eqn:A, (Nat.eqb b c) eqn:B.
      + intros _ _. apply Nat.eqb_eq in A, B. congruence.
      + destruct (isOpen open c) eqn:C; [discriminate|].
        intros _ F. discriminate F.
      + destruct (isOpen open c) eqn:C; [intros _ F; discriminate F|].
        intros F. discriminate F.
      + destruct (isOpen open c); [apply Hone|intros F; discriminate F]. }
  apply G. intros a b F. discriminate F.
Qed.

(** Four clicks; item 2 is the one left open. *)
Lemma single_mode_one_open_witness :
  after_clicks false [0; 1; 1; 2]%nat = [2%nat] /\ 2%nat = 2%nat.
Proof.
  split; [reflexivity|].
  exact (single_mode_one_open [0; 1; 1; 2]%nat 2 2 eq_refl eq_refl).
Defined.

End AccordionProperties.

(** ** Properties of the length-limited input *)

Module MaxLengthProperties.
Import JS MaxLength.

Lemma handleChange_cases (maxLength : max_length) (st : state)
      (newValue : jsstring) :
  handleChange maxLength st newValue = st
  \/ handleChange maxLength st newValue
     = mkState newValue (length_number newValue).
Proof.
  unfold handleChange. destruct (_ || _); auto.
Qed.

(** The counter is the length of the text, after any series of change
    events and for any limit. *)
Theorem charCount_is_length (maxLength : max_length) (initialValue : jsstring)
        (inputs : list jsstring) :
  charCount (after_changes maxLength initialValue inputs)
  = length_number (value (after_changes maxLength initialValue inputs)).
Proof.
  unfold after_changes.
  assert (G : forall st, charCount st = length_number (value st) ->
                         charCount (fold_left (handleChange maxLength) inputs st)
                         = length_number
                             (value (fold_left (handleChange maxLength) inputs st))).
  { induction inputs as [|x inputs IH]; intros st H; simpl; [exact H|].
    apply IH. destruct (handleChange_cases maxLength st x) as [-> | ->];
      [exact H|reflexivity]. }
  apply G. reflexivity.
Qed.

(** With a limit that is a truthy number and an initial text within it, the
    text stays within the limit whatever is typed or pasted, and an input
    over the limit is dropped as a whole: it is not cut to fit. *)
Theorem limit_is_kept (m : float) (initialValue : jsstring)
        (inputs : list jsstring) :
  ToBoolean (Num m) = true ->
  PrimFloat.leb (length_number initialValue) m = true ->
  PrimFloat.leb
    (length_number (value (after_changes (Some m) initialValue inputs))) m
  = true
  /\ forall st newValue,
       PrimFloat.leb (length_number newValue) m = false ->
       handleChange (Some m) st newValue = st.
Proof.
  intros T I. split.
  - unfold after_changes.
    assert (G : forall st,
               PrimFloat.leb (length_number (value st)) m = true ->
               PrimFloat.leb
                 (length_number
                    (value (fold_left (handleChange (Some m)) inputs st))) m
               = true).
    { induction inputs as [|x inputs IH]; intros st H; simpl; [exact H|].
      apply IH. unfold handleChange, has_limit. rewrite T. simpl negb.
      simpl orb. destruct (PrimFloat.leb (length_number x) m) eqn:L;
        [exact L|exact H]. }
    apply G. exact I.
  - intros st newValue L. unfold handleChange, has_limit.
    rewrite T, L. reflexivity.
Qed.

Lemma limit_is_kept_witness :
  PrimFloat.leb
    (length_number
       (value (after_changes (Some 5%float) (lit "ab")
                             [lit "abc"; lit "abcdefgh"; lit "abcd"])))
    5
  = true
  /\ forall st newValue,
       PrimFloat.leb (length_number newValue) 5 = false ->
       handleChange (Some 5%float) st newValue = st.
Proof.
  apply (limit_is_kept 5 (lit "ab") [lit "abc"; lit "abcdefgh"; lit "abcd"]);
    reflexivity.
Defined.

End MaxLengthProperties.

(** ** Properties of the breakpoints *)

Module DeviceSizeProperties.
Import DeviceSize.

Lemma compare_finite_antisym (m mc : positive) (e ec : Z) :
  match (ec ?= e)%Z with
  | Eq => Pos.compare_cont Eq mc m
  | Lt => Lt
  | Gt => Gt
  end
  = CompOpp match (e ?= ec)%Z with
            | Eq => Pos.compare_cont Eq m mc
            | Lt => Lt
            | Gt => Gt
            end.
Proof.
  rewrite (Z.compare_antisym e ec).
  destruct (e ?= ec)%Z; simpl; try reflexivity.
  change (Pos.compare_cont Eq mc m) with (Pos.compare mc m).
  change (Pos.compare_cont Eq m mc) with (Pos.compare m mc).
  apply Pos.compare_antisym.
Qed.

(** For every width that is a number, exactly one of [isMobile],
    [isTablet] and [isDesktop] holds; for NaN none does. *)
Theorem breakpoints_partition (w : float) :
  (PrimFloat.is_nan w = false ->
   (isMobile (useDeviceSize w) = true
    /\ isTablet (useDeviceSize w) = false
    /\ isDesktop (useDeviceSize w) = false)
   \/ (isMobile (useDeviceSize w) = false
       /\ isTablet (useDeviceSize w) = true
       /\ isDesktop (useDeviceSize w) = false)
   \/ (isMobile (useDeviceSize w) = false
       /\ isTablet (useDeviceSize w) = false
       /\ isDesktop (useDeviceSize w) = true))
  /\ (PrimFloat.is_nan w = true ->
      isMobile (useDeviceSize w) = false
      /\ isTablet (useDeviceSize w) = false
      /\ isDesktop (useDeviceSize w) = false).
Proof.
  unfold useDeviceSize, PrimFloat.is_nan.
  cbn [isMobile isTablet isDesktop].
  rewrite !FloatAxioms.ltb_spec, !FloatAxioms.leb_spec, FloatAxioms.eqb_spec.
  change (Prim2SF 768) with (S754_finite false 6755399441055744 (-43)).
  change (Prim2SF 1024) with (S754_finite false 4503599627370496 (-42)).
  unfold SFltb, SFleb, SFeqb.
  destruct (Prim2SF w) as [s|s| |s m e]; cbn [SFcompare].
  - split; [intros _|discriminate]. left. repeat split.
  - destruct s; (split; [intros _|discriminate]).
    + left. repeat split.
    + right. right. repeat split.
  - split; [discriminate|intros _; repeat split].
  - destruct s.
    + split; [intros _; left; repeat split|].
      rewrite Z.compare_refl.
      change (Pos.compare_cont Eq m m) with (Pos.compare m m).
      rewrite Pos.compare_refl. discriminate.
    + split.
      * intros _.
        rewrite (compare_finite_antisym m 6755399441055744 e (-43)),
          (compare_finite_antisym m 4503599627370496 e (-42)).
        destruct (Z.compare_spec e (-43)) as [E1|E1|E1];
          destruct (Z.compare_spec e (-42)) as [E2|E2|E2];
          try (exfalso; clear - E1 E2; lia).
        -- destruct (Pos.compare_cont Eq m 6755399441055744);
             cbn [CompOpp andb]; auto 6.
        -- cbn [CompOpp andb]; auto 6.
        -- destruct (Pos.compare_cont Eq m 4503599627370496);
             cbn [CompOpp andb]; auto 6.
        -- cbn [CompOpp andb]; auto 6.
      * rewrite Z.compare_refl.
        change (Pos.compare_cont Eq m m) with (Pos.compare m m).
        rewrite Pos.compare_refl. discriminate.
Qed.

(** 800 is a tablet width. *)
Lemma breakpoints_partition_witness :
  (isMobile (useDeviceSize 800) = true
   /\ isTablet (useDeviceSize 800) = false
   /\ isDesktop (useDeviceSize 800) = false)
  \/ (isMobile (useDeviceSize 800) = false
      /\ isTablet (useDeviceSize 800) = true
      /\ isDesktop (useDeviceSize 800) = false)
  \/ (isMobile (useDeviceSize 800) = false
      /\ isTablet (useDeviceSize 800) = false
      /\ isDesktop (useDeviceSize 800) = true).
Proof. exact (proj1 (breakpoints_partition 800) eq_refl). Defined.

End DeviceSizeProperties.

(** ** Properties of logging out *)

Module LogoutProperties.
Import JS Logout.

Lemma startsWith_inv (s prefix : jsstring) :
  startsWith s prefix = true -> exists rest, s = prefix ++ rest.
Proof.
  revert s. induction prefix as [|a prefix IH]; intros s H.
  - exists s. reflexivity.
  - destruct s as [|b s]; [discriminate H|]. simpl in H.
    apply andb_true_iff in H as [E H]. apply N.eqb_eq in E. subst b.
    destruct (IH s H) as [rest ->]. exists rest. reflexivity.
Qed.

Lemma split_from_skip (sep t rest : jsstring) :
  split_from sep (List.length t) (t ++ rest) = split_from sep 0 rest.
Proof.
  induction t as [|c t IH]; simpl.
  - destruct rest; reflexivity.
  - exact IH.
Qed.

Lemma startsWith_app (sep rest : jsstring) : startsWith (sep ++ rest) sep = true.
Proof.
  induction sep as [|a sep IH]; simpl; [reflexivity|].
  rewrite N.eqb_refl. exact IH.
Qed.

(** A piece without the first code unit of the separator, followed by the
    separator, is split off as it is. *)
Lemma split_from_piece (a : code_unit) (sep' piece rest : jsstring) :
  ~ In a piece ->
  split_from (a :: sep') 0 (piece ++ (a :: sep') ++ rest)
  = piece :: split_from (a :: sep') 0 rest.
Proof.
  induction piece as [|c piece IH]; intros N.
  - change ([] ++ (a :: sep') ++ rest) with (a :: (sep' ++ rest)).
    cbn [split_from].
    change (a :: sep' ++ rest) with ((a :: sep') ++ rest).
    rewrite startsWith_app.
    replace (List.length (a :: sep') - 1)%nat with (List.length sep')
      by (simpl; lia).
    rewrite split_from_skip. reflexivity.
  - change ((c :: piece) ++ (a :: sep') ++ rest)
      with (c :: (piece ++ (a :: sep') ++ rest)).
    cbn [split_from startsWith].
    destruct (N.eqb a c) eqn:E.
    + apply N.eqb_eq in E. subst c. exfalso. apply N. left. reflexivity.
    + cbn [andb]. rewrite IH; [reflexivity|].
      intros H. apply N. right. exact H.
Qed.

Lemma split_from_last (a : code_unit) (sep' piece : jsstring) :
  ~ In a piece -> split_from (a :: sep') 0 piece = [piece].
Proof.
  induction piece as [|c piece IH]; intros N; [reflexivity|].
  cbn [split_from startsWith].
  destruct (N.eqb a c) eqn:E.
  - apply N.eqb_eq in E. subst c. exfalso. apply N. left. reflexivity.
  - cbn [andb]. rewrite IH; [reflexivity|].
    intros H. apply N. right. exact H.
Qed.

(** Splitting at ["; "] undoes joining with ["; "], for pieces without a
    semicolon. *)
Lemma split_concat_with (parts : list jsstring) :
  parts <> [] ->
  Forall (fun p => ~ In 59%N p) parts ->
  String_split (concat_with (lit "; ") parts) (lit "; ") = parts.
Proof.
  unfold String_split. change (lit "; ") with [59%N; 32%N].
  induction parts as [|p parts IH]; intros N F;
    [exfalso; apply N; reflexivity|].
  inversion F as [|? ? Hp Hps]; subst.
  destruct parts as [|q parts].
  - simpl concat_with. apply split_from_last. exact Hp.
  - change (concat_with [59%N; 32%N] (p :: q :: parts))
      with (p ++ [59%N; 32%N] ++ concat_with [59%N; 32%N] (q :: parts)).
    rewrite split_from_piece by exact Hp.
    f_equal. apply IH; [discriminate|exact Hps].
Qed.

Lemma before_equals_no_equals (v : jsstring) : ~ In 61%N (before_equals v).
Proof.
  induction v as [|c v IH]; simpl; [tauto|].
  destruct (N.eqb c 61) eqn:E; simpl; [tauto|].
  intros [H|H]; [subst c; discriminate E|exact (IH H)].
Qed.

(** The first piece of a split at [=] is the part before the first [=]. *)
Lemma split_equals_head (v : jsstring) :
  exists pieces, String_split v [61%N] = before_equals v :: pieces.
Proof.
  unfold String_split. induction v as [|c v [pieces IH]].
  - exists []. reflexivity.
  - cbn [split_from startsWith before_equals].
    rewrite andb_true_r, (N.eqb_sym 61 c).
    destruct (N.eqb c 61).
    + eexists. reflexivity.
    + rewrite IH. eexists. reflexivity.
Qed.

Lemma refresh_name_no_equals : ~ In 61%N (lit "techverve_refresh_token").
Proof.
  intros H. simpl in H.
  repeat (destruct H as [H|H]; [discriminate H|]). exact H.
Qed.

(** The token read from a cookie that starts with the refresh-token name. *)
Lemma token_of_cookie (rest : jsstring) :
  nth_error (String_split (lit "techverve_refresh_token=" ++ rest) (lit "=")) 1
  = Some (before_equals rest).
Proof.
  unfold String_split.
  change (lit "=") with [61%N].
  change (lit "techverve_refresh_token=" ++ rest)
    with (lit "techverve_refresh_token" ++ [61%N] ++ rest).
  rewrite split_from_piece by exact refresh_name_no_equals.
  destruct (split_equals_head rest) as [pieces E].
  unfold String_split in E.
  change (nth_error (split_from [61%N] 0 rest) 0 = Some (before_equals rest)).
  rewrite E. reflexivity.
Qed.

(** [getRefreshToken] gives [null] or a String, never [undefined], and the
    String holds no [=]: it is what follows [techverve_refresh_token=] in a
    piece of [document.cookie], cut at the next [=]. *)
Theorem getRefreshToken_result (document_cookie : option jsstring) :
  getRefreshToken document_cookie = Null
  \/ exists rest,
       In (lit "techverve_refresh_token=" ++ rest)
          (String_split (match document_cookie with
                         | Some text => text
                         | None => []
                         end) (lit "; "))
       /\ getRefreshToken document_cookie = Str (before_equals rest)
       /\ ~ In 61%N (before_equals rest).
Proof.
  destruct document_cookie as [text|]; [|left; reflexivity].
  unfold getRefreshToken.
  destruct (find _ _) as [cookie|] eqn:F; [|left; reflexivity].
  apply find_some in F as [I S].
  destruct (startsWith_inv _ _ S) as [rest ->].
  right. exists rest. split; [exact I|].
  rewrite token_of_cookie. split; [reflexivity|].
  apply before_equals_no_equals.
Qed.

Lemma startsWith_name (name value : jsstring) :
  ~ In 61%N name ->
  startsWith (name ++ [61%N] ++ value) (lit "techverve_refresh_token=")
  = str_eqb name (lit "techverve_refresh_token").
Proof.
  change (lit "techverve_refresh_token=")
    with (lit "techverve_refresh_token" ++ [61%N]).
  pose proof refresh_name_no_equals as P. revert P.
  generalize (lit "techverve_refresh_token") as wanted.
  induction name as [|a name IH]; intros wanted P N.
  - destruct wanted as [|b wanted]; [reflexivity|].
    cbn [app startsWith str_eqb].
    destruct (N.eqb b 61) eqn:E; [|reflexivity].
    apply N.eqb_eq in E. subst b. exfalso. apply P. left. reflexivity.
  - destruct wanted as [|b wanted]; cbn [app startsWith str_eqb].
    + destruct (N.eqb 61 a) eqn:E; [|reflexivity].
      apply N.eqb_eq in E. subst a. exfalso. apply N. left. reflexivity.
    + rewrite (N.eqb_sym b a). destruct (N.eqb a b); [|reflexivity].
      cbn [andb]. apply IH.
      * intros H. apply P. right. exact H.
      * intros H. apply N. right. exact H.
Qed.

(** Reading back what was written: with cookies given as names and values
    that hold no semicolon, and names that hold no [=], [getRefreshToken]
    finds the value of the first cookie named [techverve_refresh_token],
    up to the first [=] in it, and gives [null] when there is none. *)
Theorem getRefreshToken_cookie_text (pairs : list (jsstring * jsstring)) :
  Forall (fun p => ~ In 59%N (fst p) /\ ~ In 61%N (fst p) /\ ~ In 59%N (snd p))
         pairs ->
  getRefreshToken (Some (cookie_text pairs))
  = match find (fun p => str_eqb (fst p) (lit "techverve_refresh_token"))
               pairs with
    | Some p => Str (before_equals (snd p))
    | None => Null
    end.
Proof.
  intros F. unfold getRefreshToken, cookie_text.
  destruct pairs as [|p0 pairs0]; [reflexivity|].
  remember (p0 :: pairs0) as pairs eqn:Epairs.
  rewrite split_concat_with.
  - clear Epairs p0 pairs0.
    induction F as [|p pairs [_ [N _]] _ IH]; [reflexivity|].
    cbn [map find].
    pose proof (startsWith_name (fst p) (snd p) N) as S.
    unfold jsstring, code_unit in *. rewrite S.
    destruct (str_eqb (fst p) (lit "techverve_refresh_token")) eqn:E.
    + apply Facts.str_eqb_eq in E. rewrite E.
      change ((if ToBoolean (Str (lit "techverve_refresh_token=" ++ snd p))
               then match nth_error
                            (String_split
                               (lit "techverve_refresh_token=" ++ snd p)
                               (lit "=")) 1 with
                    | Some token => Str token
                    | None => Undefined
                    end
               else Null)
              = Str (before_equals (snd p))).
      rewrite (token_of_cookie (snd p)). reflexivity.
    + exact IH.
  - subst pairs. discriminate.
  - clear Epairs. induction F as [|p pairs [S1 [_ S2]] _ IH]; simpl;
      constructor; [|exact IH].
    intros H. apply in_app_or in H as [H|H]; [exact (S1 H)|].
    destruct H as [H|H]; [discriminate H|exact (S2 H)].
Qed.

Lemma getRefreshToken_cookie_text_witness :
  getRefreshToken
    (Some (cookie_text [(lit "theme", lit "dark");
                        (lit "techverve_refresh_token", lit "abc=def");
                        (lit "techverve_refresh_token", lit "second")]))
  = Str (lit "abc").
Proof.
  apply (getRefreshToken_cookie_text
           [(lit "theme", lit "dark");
            (lit "techverve_refresh_token", lit "abc=def");
            (lit "techverve_refresh_token", lit "second")]).
  repeat constructor; simpl; intros H;
    repeat (destruct H as [H|H]; [discriminate H|]); exact H.
Defined.

(** The runs of [logout], by what the cookie holds and how the request
    ends. *)
Ltac logout_cases document_cookie request redirectToLogin :=
  unfold logout; cbv zeta;
  destruct (ToBoolean (getRefreshToken (Some document_cookie)));
  [destruct request as [|error]; cbv iota;
   [|destruct (bind (get error (lit "response"))
                    (fun r => get_opt r (lit "status"))) as [status|x];
     [destruct (negb (strict_equals_number status 405))|]]
  |cbv iota];
  unfold redirect; destruct (ToBoolean redirectToLogin).

(** In every run of [logout] the busy flag is raised first and lowered
    last, and not touched in between: also when the request fails, and when
    the handling of the failure itself raises. *)
Theorem logout_flag_bracket (redirectToLogin redirectPath : value)
        (document_cookie : jsstring) (request : request_outcome) :
  hd_error (fst (logout redirectToLogin redirectPath document_cookie request))
  = Some (setIsLoggingOut true)
  /\ last (fst (logout redirectToLogin redirectPath document_cookie request))
          (setIsLoggingOut true)
     = setIsLoggingOut false
  /\ filter is_flag
            (fst (logout redirectToLogin redirectPath document_cookie request))
     = [setIsLoggingOut true; setIsLoggingOut false].
Proof.
  logout_cases document_cookie request redirectToLogin; cbn [fst];
    repeat split.
Qed.

(** Unless the request is rejected with [null] or [undefined], the promise
    of [logout] resolves; [document.cookie] is assigned exactly four times,
    once for each of the cookies techverve_auth_token,
    techverve_refresh_token, techverve_role and techverve_mentor_role, in
    that order, each time with an empty value, the path [/] and an expiry
    date in 1970; and the router is asked for the redirect path once when
    [redirectToLogin] is truthy and not at all otherwise: whether the
    request succeeds, fails, or is not sent. *)
Theorem logout_cleans_up (redirectToLogin redirectPath : value)
        (document_cookie : jsstring) (request : request_outcome) :
  match request with
  | rejected error => is_nullish error
  | fulfilled => false
  end = false ->
  snd (logout redirectToLogin redirectPath document_cookie request) = Resolves
  /\ filter is_cookie_write
            (fst (logout redirectToLogin redirectPath document_cookie request))
     = [document_cookie_set
          (lit "techverve_auth_token=; Path=/; Expires=Thu, 01 Jan 1970 00:00:01 GMT;");
        document_cookie_set
          (lit "techverve_refresh_token=; Path=/; Expires=Thu, 01 Jan 1970 00:00:01 GMT;");
        document_cookie_set
          (lit "techverve_role=; Path=/; Expires=Thu, 01 Jan 1970 00:00:01 GMT;");
        document_cookie_set
          (lit "techverve_mentor_role=; Path=/; Expires=Thu, 01 Jan 1970 00:00:01 GMT;")]
  /\ filter is_push
            (fst (logout redirectToLogin redirectPath document_cookie request))
     = if ToBoolean redirectToLogin then [router_push redirectPath] else [].
Proof.
  intros N. unfold logout. cbv zeta.
  destruct (ToBoolean (getRefreshToken (Some document_cookie))).
  - destruct request as [|error]; cbv iota.
    + unfold redirect. destruct (ToBoolean redirectToLogin); repeat split.
    + rewrite (Facts.get_read _ _ N), Facts.bind_ret, Facts.get_opt_read.
      cbv iota beta. unfold ret.
      destruct (negb (strict_equals_number _ 405));
        unfold redirect; destruct (ToBoolean redirectToLogin); repeat split.
  - cbv iota. unfold redirect.
    destruct (ToBoolean redirectToLogin); repeat split.
Qed.

(** A rejection with a response of status 405, and no redirect. *)
Lemma logout_cleans_up_witness :
  snd (logout (Bool false) (Str (lit "/login"))
              (lit "techverve_refresh_token=tok")
              (rejected (object [field "response"
                                   (object [field "status" (Num 405)])])))
  = Resolves
  /\ filter is_cookie_write
            (fst (logout (Bool false) (Str (lit "/login"))
                         (lit "techverve_refresh_token=tok")
                         (rejected (object [field "response"
                                              (object [field "status"
                                                         (Num 405)])]))))
     = [document_cookie_set
          (lit "techverve_auth_token=; Path=/; Expires=Thu, 01 Jan 1970 00:00:01 GMT;");
        document_cookie_set
          (lit "techverve_refresh_token=; Path=/; Expires=Thu, 01 Jan 1970 00:00:01 GMT;");
        document_cookie_set
          (lit "techverve_role=; Path=/; Expires=Thu, 01 Jan 1970 00:00:01 GMT;");
        document_cookie_set
          (lit "techverve_mentor_role=; Path=/; Expires=Thu, 01 Jan 1970 00:00:01 GMT;")]
  /\ filter is_push
            (fst (logout (Bool false) (Str (lit "/login"))
                         (lit "techverve_refresh_token=tok")
                         (rejected (object [field "response"
                                              (object [field "status"
                                                         (Num 405)])]))))
     = if ToBoolean (Bool false) then [router_push (Str (lit "/login"))]
       else [].
Proof.
  apply (logout_cleans_up (Bool false) (Str (lit "/login"))
                          (lit "techverve_refresh_token=tok")).
  reflexivity.
Defined.

(** When the request is sent and rejected with [null] or [undefined], the
    catch block raises on [error.response]: the promise of [logout] rejects
    with that TypeError, no cookie is expired and no redirect is made. *)
Theorem logout_nullish_rejection (redirectToLogin redirectPath : value)
        (document_cookie : jsstring) (error : value) :
  ToBoolean (getRefreshToken (Some document_cookie)) = true ->
  is_nullish error = true ->
  snd (logout redirectToLogin redirectPath document_cookie (rejected error))
  = Rejects TypeError
  /\ filter is_cookie_write
            (fst (logout redirectToLogin redirectPath document_cookie
                         (rejected error)))
     = []
  /\ filter is_push
            (fst (logout redirectToLogin redirectPath document_cookie
                         (rejected error)))
     = [].
Proof.
  intros T N. unfold logout. cbv zeta. rewrite T. cbv iota.
  destruct error; try discriminate N; repeat split.
Qed.

Lemma logout_nullish_rejection_witness :
  snd (logout (Bool true) (Str (lit "/login"))
              (lit "techverve_refresh_token=tok") (rejected Undefined))
  = Rejects TypeError
  /\ filter is_cookie_write
            (fst (logout (Bool true) (Str (lit "/login"))
                         (lit "techverve_refresh_token=tok")
                         (rejected Undefined)))
     = []
  /\ filter is_push
            (fst (logout (Bool true) (Str (lit "/login"))
                         (lit "techverve_refresh_token=tok")
                         (rejected Undefined)))
     = [].
Proof.
  apply (logout_nullish_rejection (Bool true) (Str (lit "/login"))
                                  (lit "techverve_refresh_token=tok")
                                  Undefined);
    reflexivity.
Defined.



End LogoutProperties.
